(** * Face-embedding store and matching engine of the Laberion face service

    A shallow embedding of [src/face_recognition_service/app.py]: the three
    module-level globals ([known_face_encodings], [known_face_ids],
    [known_face_metadata]), the pickle file behind them, the nearest-neighbour
    search, the three mutating request handlers, the two reading ones
    ([recognize], [get_worker_faces]), the statistics of [status] and the
    start-up in [main].

    Conventions of the embedding.
    - Python [float] / numpy [float64] values are real numbers ([R]); rounding
      is not modelled.
    - [enroll] and [enroll_batch] are the two handlers on a run in which the
      form fields are well formed and no write of an image file raises: they
      start where the uploaded image has been turned into the list of face
      encodings by [detect_and_encode_faces] (which never raises: it returns
      [[], []] on any error).  [enroll_route] and [enroll_batch_route] are the
      same handlers with the form fields and the image writes as inputs, and
      with the [except] branch an image write leads to; [recognize_route] is
      that for [recognize].
    - Encodings are vectors of one common length, as the encoder produces
      them; [euclidean_distance] says nothing faithful about vectors of
      different lengths, on which numpy raises or broadcasts.
    - Every [datetime.now().isoformat()] of a handler is a reading of the
      argument [now]: [now k] is the [k]-th of the readings that end up in the
      index or in the store file, counted from 0 in the order the handler
      makes them.
    - What the disk does during a save is an input ([disk_outcome]). *)

From Stdlib Require Import Reals Lra Sorted.
From stdpp Require Import gmap strings list fin_maps pretty.

Open Scope string_scope.
Open Scope list_scope.

(** ** Configuration *)

(** The entries of [CONFIG] read by the modelled code. *)
Record config := Config {
  KNOWN_FACES_FILE : string;
  FACE_MATCH_THRESHOLD : R;
  MAX_FACES_PER_WORKER : nat
}.

Definition CONFIG : config :=
  {| KNOWN_FACES_FILE := "known_faces.dat";
     FACE_MATCH_THRESHOLD := (6 / 10)%R;
     MAX_FACES_PER_WORKER := 10 |}.

(** ** The in-memory index *)

Definition embedding := list R.

(** The value type of [known_face_metadata]. *)
Record worker_meta := WorkerMeta {
  first_enrolled : string;
  last_enrolled : string;
  total_faces : nat;
  enrollment_dates : list string
}.

(** The three globals. *)
Record faces := Faces {
  known_face_encodings : list embedding;
  known_face_ids : list Z;
  known_face_metadata : gmap Z worker_meta
}.

Definition no_faces : faces :=
  {| known_face_encodings := []; known_face_ids := []; known_face_metadata := ∅ |}.

(** [known_face_ids.count(worker_id)] *)
Fixpoint list_count (worker_id : Z) (ids : list Z) : nat :=
  match ids with
  | [] => 0
  | wid :: rest =>
      (if Z.eqb wid worker_id then 1 else 0) + list_count worker_id rest
  end.

(** [[i for i, wid in enumerate(known_face_ids) if wid == worker_id]],
    with the enumeration starting at [i]. *)
Fixpoint indices_from (worker_id : Z) (i : nat) (ids : list Z) : list nat :=
  match ids with
  | [] => []
  | wid :: rest =>
      if Z.eqb wid worker_id
      then i :: indices_from worker_id (S i) rest
      else indices_from worker_id (S i) rest
  end.

Definition indices_of (worker_id : Z) (ids : list Z) : list nat :=
  indices_from worker_id 0 ids.

(** [sorted(indices, reverse=True)]: a stable sort into descending order. *)
Fixpoint insert_desc (x : nat) (l : list nat) : list nat :=
  match l with
  | [] => [x]
  | y :: rest => if Nat.leb y x then x :: y :: rest else y :: insert_desc x rest
  end.

Fixpoint sorted_reverse (l : list nat) : list nat :=
  match l with
  | [] => []
  | x :: rest => insert_desc x (sorted_reverse rest)
  end.

(** [l.pop(index)] for a non-negative index: [None] stands for the
    [IndexError] Python raises when the index is out of range. *)
Definition pop {A} (l : list A) (index : nat) : option (list A) :=
  match l !! index with
  | Some _ => Some (delete index l)
  | None => None
  end.

(** ** The store file *)

(** The dict handed to [pickle.dump]. [load_known_faces] reads ['metadata']
    with [.get], so a store may lack it. *)
Record store_data := StoreData {
  st_encodings : list embedding;
  st_ids : list Z;
  st_metadata : option (gmap Z worker_meta);
  st_saved_at : string;
  st_version : string
}.

(** What a file holds, as far as [pickle.load] can tell: a whole pickle of a
    store dict, or something it raises on (a file just emptied by
    [open(.., 'wb')], or one whose pickle stops short). *)
Inductive file_content :=
  | Pickled (d : store_data)
  | Torn.

Abbreviation filesystem := (gmap string file_content).

(** [open(path, 'wb')]: creates the file or cuts it to length zero. *)
Definition open_wb (path : string) (fs : filesystem) : filesystem :=
  <[path := Torn]> fs.

(** [pickle.dump(data, f)] followed by the close at the end of [with]. *)
Definition pickle_dump (path : string) (d : store_data) (fs : filesystem) : filesystem :=
  <[path := Pickled d]> fs.

(** How the disk behaves during one [save_known_faces]. *)
Inductive disk_outcome :=
  | DiskOk       (* both the open and the dump go through *)
  | OpenFails    (* [open] raises: nothing is touched *)
  | DumpFails.   (* the file is opened, the dump raises part-way *)

Definition store_of (saved_at : string) (s : faces) : store_data :=
  {| st_encodings := known_face_encodings s;
     st_ids := known_face_ids s;
     st_metadata := Some (known_face_metadata s);
     st_saved_at := saved_at;
     st_version := "1.0" |}.

(** [save_known_faces]: the value returned and the file system left behind. *)
Definition save_known_faces (cfg : config) (dk : disk_outcome) (saved_at : string)
    (s : faces) (fs : filesystem) : bool * filesystem :=
  let data := store_of saved_at s in
  match dk with
  | OpenFails => (false, fs)
  | DumpFails => (false, open_wb (KNOWN_FACES_FILE cfg) fs)
  | DiskOk =>
      (true, pickle_dump (KNOWN_FACES_FILE cfg) data (open_wb (KNOWN_FACES_FILE cfg) fs))
  end.

(** The successive contents of the disk during a save that is not disturbed:
    before it, after the [open], after the dump.  A crash, or a load running
    in another thread, finds one of them. *)
Definition save_trace (cfg : config) (saved_at : string) (s : faces)
    (fs : filesystem) : list filesystem :=
  let path := KNOWN_FACES_FILE cfg in
  [ fs;
    open_wb path fs;
    pickle_dump path (store_of saved_at s) (open_wb path fs) ].

(** Which branch [load_known_faces] took. *)
Inductive load_report :=
  | Loaded      (* the file was read *)
  | LoadError   (* the [except] branch: "Error loading known faces" *)
  | NoFile.     (* the [else] branch: "Starting fresh" *)

Definition load_known_faces (cfg : config) (fs : filesystem) : load_report * faces :=
  match fs !! KNOWN_FACES_FILE cfg with
  | Some (Pickled data) =>
      (Loaded,
       {| known_face_encodings := st_encodings data;
          known_face_ids := st_ids data;
          known_face_metadata := default ∅ (st_metadata data) |})
  | Some Torn => (LoadError, no_faces)
  | None => (NoFile, no_faces)
  end.

(** ** Matching *)

Open Scope R_scope.

Definition sum_R (l : list R) : R := foldr Rplus 0 l.

(** The Euclidean norm of [a - b], component by component, for [a] and [b]
    of the same length. *)
Definition euclidean_distance (a b : embedding) : R :=
  sqrt (sum_R (zip_with (fun x y => (x - y) * (x - y)) a b)).

(** [face_recognition.face_distance(face_encodings, face_to_compare)] of the
    face_recognition package: [np.linalg.norm(face_encodings - face_to_compare,
    axis=1)], one distance per stored encoding. *)
Definition face_distance (face_encodings : list embedding)
    (face_to_compare : embedding) : list R :=
  map (fun e => euclidean_distance e face_to_compare) face_encodings.

(** [np.argmin]: the scan keeps the running minimum [best], found at
    [best_i], and replaces it only by a strictly smaller value, so the first
    of several equal minima wins. *)
Fixpoint argmin_from (l : list R) (i best_i : nat) (best : R) : nat :=
  match l with
  | [] => best_i
  | x :: rest =>
      if Rlt_dec x best
      then argmin_from rest (S i) i x
      else argmin_from rest (S i) best_i best
  end.

Definition argmin (l : list R) : nat :=
  match l with
  | [] => 0%nat
  | x :: rest => argmin_from rest 1 0 x
  end.

(** A value, or the exception that was raised instead. *)
Inductive outcome (A : Type) :=
  | Ok (a : A)
  | Raise (msg : string).
Arguments Ok {A} a.
Arguments Raise {A} msg.

Definition find_best_match (cfg : config) (s : faces) (face_encoding : embedding)
    (threshold : option R) : outcome (option Z * R) :=
  let threshold := default (FACE_MATCH_THRESHOLD cfg) threshold in
  match known_face_encodings s with
  | [] => Ok (None, 0)
  | _ :: _ =>
      let face_distances := face_distance (known_face_encodings s) face_encoding in
      let best_match_index := argmin face_distances in
      match face_distances !! best_match_index with
      | None => Raise "index out of bounds"
      | Some best_distance =>
          let confidence := 1 - best_distance in
          if Rge_dec confidence threshold then
            match known_face_ids s !! best_match_index with
            | Some worker_id => Ok (Some worker_id, confidence)
            | None => Raise "list index out of range"
            end
          else Ok (None, confidence)
      end
  end.

Close Scope R_scope.

(** ** Responses *)

(** The values passed to [jsonify]. *)
#[warnings="-register-all"]
Inductive json :=
  | JNull
  | JBool (b : bool)
  | JInt (z : Z)
  | JNum (r : R)
  | JStr (s : string)
  | JList (l : list json)
  | JObj (fields : list (string * json)).

(** A Flask response: the status code and the fields of the JSON body, in the
    order the handler writes them. *)
Record response := Response {
  status_code : nat;
  body : list (string * json)
}.

Definition jnat (n : nat) : json := JInt (Z.of_nat n).

(** [body[key]] *)
Fixpoint field (key : string) (fields : list (string * json)) : option json :=
  match fields with
  | [] => None
  | (k, v) :: rest => if String.eqb k key then Some v else field key rest
  end.

(** The process: the globals and the disk. *)
Record world := World {
  mem : faces;
  files : filesystem
}.

(** ** POST /enroll *)

(** The handler from the detected encodings on, for a well-formed request
    none of whose image writes raises; [enroll_route] below is the whole
    handler. *)
Definition enroll (cfg : config) (dk : disk_outcome) (now : nat -> string)
    (worker_id : Z) (face_encodings : list embedding) (w : world) : response * world :=
  let s := mem w in
  match face_encodings with
  | [] =>
      (Response 400
         [("success", JBool false);
          ("message", JStr "No face detected in the image");
          ("code", JStr "NO_FACE_DETECTED")], w)
  | _ :: _ :: _ =>
      (Response 400
         [("success", JBool false);
          ("message", JStr "Multiple faces detected. Please upload image with only one face.");
          ("code", JStr "MULTIPLE_FACES")], w)
  | [face_encoding] =>
      let worker_face_count := list_count worker_id (known_face_ids s) in
      if Nat.leb (MAX_FACES_PER_WORKER cfg) worker_face_count then
        (Response 400
           [("success", JBool false);
            ("message", JStr ("Worker already has " +:+ pretty worker_face_count
                              +:+ " faces enrolled (max: "
                              +:+ pretty (MAX_FACES_PER_WORKER cfg) +:+ ")"));
            ("code", JStr "MAX_FACES_REACHED")], w)
      else
        let encodings' := known_face_encodings s ++ [face_encoding] in
        let ids' := known_face_ids s ++ [worker_id] in
        let '(metadata', saved_at) :=
          match known_face_metadata s !! worker_id with
          | None =>
              (<[worker_id :=
                   {| first_enrolled := now 0;
                      last_enrolled := now 1;
                      total_faces := 1;
                      enrollment_dates := [now 2] |}]> (known_face_metadata s),
               now 3)
          | Some metadata =>
              (<[worker_id :=
                   {| first_enrolled := first_enrolled metadata;
                      last_enrolled := now 0;
                      total_faces := worker_face_count + 1;
                      enrollment_dates := enrollment_dates metadata ++ [now 1] |}]>
                 (known_face_metadata s),
               now 2)
          end in
        let s' := Faces encodings' ids' metadata' in
        let '(_, fs') := save_known_faces cfg dk saved_at s' (files w) in
        let original_filename :=
          "worker_" +:+ pretty worker_id +:+ "_" +:+ pretty (length encodings') +:+ ".jpg" in
        (Response 200
           [("success", JBool true);
            ("message", JStr "Face enrolled successfully");
            ("worker_id", JInt worker_id);
            ("face_index", jnat (length encodings' - 1));
            ("total_faces_for_worker", jnat (worker_face_count + 1));
            ("total_faces_in_system", jnat (length encodings'));
            ("image_saved_as", JStr original_filename)],
         World s' fs')
  end.

(** ** POST /enroll_batch *)

(** The variables the loop over the images updates. *)
Record batch_acc := BatchAcc {
  b_encodings : list embedding;
  b_ids : list Z;
  successful : nat;
  failed : nat;
  results : list json
}.

(** [for i, image_file in enumerate(images)], from index [i] on; every image
    is given as the face encodings detected in it. *)
Fixpoint batch_loop (worker_id : Z) (i : nat) (images : list (list embedding))
    (acc : batch_acc) : batch_acc :=
  match images with
  | [] => acc
  | face_encodings :: rest =>
      let acc' :=
        match face_encodings with
        | [face_encoding] =>
            {| b_encodings := b_encodings acc ++ [face_encoding];
               b_ids := b_ids acc ++ [worker_id];
               successful := successful acc + 1;
               failed := failed acc;
               results := results acc ++
                 [JObj [("image_index", jnat i);
                        ("status", JStr "success");
                        ("message", JStr "Face enrolled")]] |}
        | _ =>
            {| b_encodings := b_encodings acc;
               b_ids := b_ids acc;
               successful := successful acc;
               failed := failed acc + 1;
               results := results acc ++
                 [JObj [("image_index", jnat i);
                        ("status", JStr "failed");
                        ("message", JStr "No face or multiple faces detected")]] |}
        end in
      batch_loop worker_id (S i) rest acc'
  end.

(** The handler for a well-formed request none of whose image writes
    raises; [enroll_batch_route] below is the whole handler. *)
Definition enroll_batch (cfg : config) (dk : disk_outcome) (now : nat -> string)
    (worker_id : Z) (images : list (list embedding)) (w : world) : response * world :=
  let s := mem w in
  match images with
  | [] =>
      (Response 400
         [("success", JBool false); ("message", JStr "No images provided")], w)
  | _ :: _ =>
      let acc := batch_loop worker_id 0 images
                   (BatchAcc (known_face_encodings s) (known_face_ids s) 0 0 []) in
      let w' :=
        if Nat.ltb 0 (successful acc) then
          let '(metadata', saved_at) :=
            match known_face_metadata s !! worker_id with
            | None =>
                (<[worker_id :=
                     {| first_enrolled := now 0;
                        last_enrolled := now 1;
                        total_faces := successful acc;
                        enrollment_dates := [now 2] |}]> (known_face_metadata s),
                 now 3)
            | Some metadata =>
                (<[worker_id :=
                     {| first_enrolled := first_enrolled metadata;
                        last_enrolled := now 0;
                        total_faces := total_faces metadata + successful acc;
                        enrollment_dates := enrollment_dates metadata ++ [now 1] |}]>
                   (known_face_metadata s),
                 now 2)
            end in
          let s' := Faces (b_encodings acc) (b_ids acc) metadata' in
          let '(_, fs') := save_known_faces cfg dk saved_at s' (files w) in
          World s' fs'
        else
          World (Faces (b_encodings acc) (b_ids acc) (known_face_metadata s)) (files w) in
      (Response 200
         [("success", JBool true);
          ("message", JStr ("Batch enrollment completed: " +:+ pretty (successful acc)
                            +:+ " successful, " +:+ pretty (failed acc) +:+ " failed"));
          ("worker_id", JInt worker_id);
          ("successful", jnat (successful acc));
          ("failed", jnat (failed acc));
          ("results", JList (results acc));
          ("total_faces_for_worker", jnat (list_count worker_id (b_ids acc)))],
       w')
  end.

(** ** DELETE /worker/<id>/faces *)

(** The loop [for index in ...: known_face_encodings.pop(index);
    known_face_ids.pop(index)].  The first component is the message of the
    [IndexError] that stopped it, if one did; the lists are returned as the
    loop left them. *)
Fixpoint pop_loop (indices : list nat) (encodings : list embedding) (ids : list Z)
    : option string * (list embedding * list Z) :=
  match indices with
  | [] => (None, (encodings, ids))
  | index :: rest =>
      match pop encodings index with
      | None => (Some "pop index out of range", (encodings, ids))
      | Some encodings' =>
          match pop ids index with
          | None => (Some "pop index out of range", (encodings', ids))
          | Some ids' => pop_loop rest encodings' ids'
          end
      end
  end.

Definition delete_worker_faces (cfg : config) (dk : disk_outcome) (now : nat -> string)
    (worker_id : Z) (w : world) : response * world :=
  let s := mem w in
  let indices_to_remove := indices_of worker_id (known_face_ids s) in
  match indices_to_remove with
  | [] =>
      (Response 404
         [("success", JBool false);
          ("message", JStr ("No faces found for worker " +:+ pretty worker_id))], w)
  | _ :: _ =>
      match pop_loop (sorted_reverse indices_to_remove)
                     (known_face_encodings s) (known_face_ids s) with
      | (Some e, (encodings', ids')) =>
          (Response 500
             [("success", JBool false);
              ("message", JStr ("Internal server error: " +:+ e))],
           World (Faces encodings' ids' (known_face_metadata s)) (files w))
      | (None, (encodings', ids')) =>
          let metadata' := delete worker_id (known_face_metadata s) in
          let s' := Faces encodings' ids' metadata' in
          let '(_, fs') := save_known_faces cfg dk (now 0) s' (files w) in
          (Response 200
             [("success", JBool true);
              ("message", JStr ("Deleted " +:+ pretty (length indices_to_remove)
                                +:+ " faces for worker " +:+ pretty worker_id));
              ("worker_id", JInt worker_id);
              ("faces_deleted", jnat (length indices_to_remove))],
           World s' fs')
      end
  end.

(** ** Sequences of requests *)

Inductive request :=
  | Enroll (worker_id : Z) (face_encodings : list embedding)
  | EnrollBatch (worker_id : Z) (images : list (list embedding))
  | DeleteWorkerFaces (worker_id : Z).

(** One request together with what the environment does while it is served. *)
Record call := Call {
  call_request : request;
  call_disk : disk_outcome;
  call_now : nat -> string
}.

Definition handle (cfg : config) (c : call) (w : world) : response * world :=
  match call_request c with
  | Enroll worker_id face_encodings =>
      enroll cfg (call_disk c) (call_now c) worker_id face_encodings w
  | EnrollBatch worker_id images =>
      enroll_batch cfg (call_disk c) (call_now c) worker_id images w
  | DeleteWorkerFaces worker_id =>
      delete_worker_faces cfg (call_disk c) (call_now c) worker_id w
  end.

(** The world after serving the calls one after the other. *)
Definition run (cfg : config) (calls : list call) (w : world) : world :=
  foldl (fun w c => snd (handle cfg c w)) w calls.

(** The process right after start-up with no store file. *)
Definition fresh : world := World no_faces ∅.

(** A clock for the examples: the [k]-th reading is ["T<k>"]. *)
Definition clock (k : nat) : string := "T" +:+ pretty k.

(** ** Properties of the index *)

(** Encodings and ids have the same length. *)
Definition lock_step (s : faces) : Prop :=
  length (known_face_encodings s) = length (known_face_ids s).

(** [total_faces] of a worker's metadata, 0 when it has none. *)
Definition recorded_total (s : faces) (worker_id : Z) : nat :=
  from_option total_faces 0 (known_face_metadata s !! worker_id).

(** The index is in lock-step and the record count of every worker is the
    [total_faces] written in its metadata (none for a worker without records). *)
Definition consistent (s : faces) : Prop :=
  lock_step s /\
  forall worker_id, list_count worker_id (known_face_ids s) = recorded_total s worker_id.

(** [sum(m['total_faces'] for m in known_face_metadata.values())] *)
Definition sum_total_faces (metadata : gmap Z worker_meta) : nat :=
  map_fold (fun _ m acc => total_faces m + acc) 0 metadata.



(** A load of this disk does not end in the error branch. *)
Definition readable (cfg : config) (fs : filesystem) : Prop :=
  fst (load_known_faces cfg fs) <> LoadError.

(** The loop of [delete_worker_faces] on one list alone. *)
Fixpoint pop_each {A} (indices : list nat) (l : list A) : option (list A) :=
  match indices with
  | [] => Some l
  | index :: rest =>
      match pop l index with
      | Some l' => pop_each rest l'
      | None => None
      end
  end.

(** The entries of [l] whose position holds another worker in [ids]. *)
Fixpoint keep_others {A} (worker_id : Z) (ids : list Z) (l : list A) : list A :=
  match ids, l with
  | wid :: ids', a :: l' =>
      if Z.eqb wid worker_id
      then keep_others worker_id ids' l'
      else a :: keep_others worker_id ids' l'
  | _, _ => []
  end.

(** ** Example data *)

Definition E1 : embedding := [0; 0]%R.
Definition E2 : embedding := [3; 4]%R.

(** Worker 42 enrolled once, and the disk after that enrollment. *)
Definition one_enrolled : world :=
  run CONFIG [Call (Enroll 42 [E1]) DiskOk clock] fresh.

(** Worker 42 enrolled ten times, one image at a time. *)
Definition ten_enrolled : world :=
  run CONFIG (replicate 10 (Call (Enroll 42 [E1]) DiskOk clock)) fresh.

(** The number of images in which exactly one face was found. *)
Fixpoint single_face_images (images : list (list embedding)) : nat :=
  match images with
  | [] => 0
  | [_] :: rest => S (single_face_images rest)
  | _ :: rest => single_face_images rest
  end.

(** [d] is the value of [l] at [k], no value of [l] is smaller, and every
    value before position [k] is strictly larger. *)
Definition is_first_min (l : list R) (k : nat) (d : R) : Prop :=
  l !! k = Some d /\
  (forall j d', l !! j = Some d' -> (d <= d')%R) /\
  (forall j d', j < k -> l !! j = Some d' -> (d < d')%R).

(** ** POST /recognize *)

(** A metadata dict as [jsonify] writes it. *)
Definition meta_json (m : worker_meta) : json :=
  JObj [("first_enrolled", JStr (first_enrolled m));
        ("last_enrolled", JStr (last_enrolled m));
        ("total_faces", jnat (total_faces m));
        ("enrollment_dates", JList (JStr <$> enrollment_dates m))].

(** A face location [(top, right, bottom, left)] as [jsonify] writes it. *)
Definition location_json (loc : Z * Z * Z * Z) : json :=
  let '(top, right_, bottom, left_) := loc in
  JList [JInt top; JInt right_; JInt bottom; JInt left_].

(** [recognize], from the result of [detect_and_encode_faces] on. *)
Definition recognize (cfg : config) (face_encodings : list embedding)
    (face_locations : list (Z * Z * Z * Z)) (s : faces) : response :=
  match face_encodings with
  | [] =>
      Response 404
        [("success", JBool false);
         ("message", JStr "No face detected in the image");
         ("code", JStr "NO_FACE_DETECTED")]
  | _ :: _ :: _ =>
      Response 400
        [("success", JBool false);
         ("message", JStr "Multiple faces detected. Please ensure only one face is visible.");
         ("code", JStr "MULTIPLE_FACES");
         ("faces_detected", jnat (length face_encodings))]
  | [face_encoding] =>
      match find_best_match cfg s face_encoding None with
      | Raise e =>
          Response 500
            [("success", JBool false);
             ("message", JStr ("Internal server error: " +:+ e));
             ("code", JStr "INTERNAL_ERROR")]
      | Ok (Some worker_id, confidence) =>
          let metadata :=
            match known_face_metadata s !! worker_id with
            | Some m => meta_json m
            | None => JObj []
            end in
          Response 200
            [("success", JBool true);
             ("worker_id", JInt worker_id);
             ("confidence", JNum confidence);
             ("message", JStr "Face recognized successfully");
             ("metadata", metadata);
             ("face_location", from_option location_json JNull (head face_locations))]
      | Ok (None, confidence) =>
          Response 404
            [("success", JBool false);
             ("message", JStr "Face not recognized");
             ("confidence", JNum confidence);
             ("code", JStr "FACE_NOT_RECOGNIZED");
             ("threshold", JNum (FACE_MATCH_THRESHOLD cfg))]
      end
  end.

(** ** GET /worker/<id>/faces *)

Definition get_worker_faces (worker_id : Z) (s : faces) : response :=
  let face_indices := indices_of worker_id (known_face_ids s) in
  match face_indices with
  | [] =>
      Response 404
        [("success", JBool false);
         ("message", JStr ("No faces found for worker " +:+ pretty worker_id));
         ("worker_id", JInt worker_id)]
  | _ :: _ =>
      let metadata :=
        match known_face_metadata s !! worker_id with
        | Some m => meta_json m
        | None => JObj []
        end in
      Response 200
        [("success", JBool true);
         ("worker_id", JInt worker_id);
         ("face_count", jnat (length face_indices));
         ("face_indices", JList (jnat <$> face_indices));
         ("metadata", metadata);
         ("first_face_index", from_option jnat JNull (head face_indices));
         ("last_face_index", from_option jnat JNull (last face_indices))]
  end.

(** ** GET /status: the statistics *)

(** [worker_counts[worker_id] = worker_counts.get(worker_id, 0) + 1] on a dict
    kept as the list of its items in insertion order. *)
Fixpoint bump (worker_id : Z) (counts : list (Z * nat)) : list (Z * nat) :=
  match counts with
  | [] => [(worker_id, 0 + 1)]
  | (k, n) :: rest =>
      if Z.eqb k worker_id then (k, n + 1) :: rest else (k, n) :: bump worker_id rest
  end.

(** The loop [for worker_id in known_face_ids] that fills [worker_counts]. *)
Definition worker_counts (ids : list Z) : list (Z * nat) :=
  foldl (fun counts worker_id => bump worker_id counts) [] ids.

(** [max(items, key=lambda x: x[1])] with [best] the largest so far: a later
    item replaces it only when its count is strictly larger. *)
Fixpoint max_by_count (best : Z * nat) (items : list (Z * nat)) : Z * nat :=
  match items with
  | [] => best
  | x :: rest =>
      if Nat.ltb (snd best) (snd x) then max_by_count x rest else max_by_count best rest
  end.

(** The local variables of [status] the statistics are made of. *)
Record statistics := Statistics {
  stat_total_faces : nat;
  stat_unique_workers : nat;
  stat_avg_faces_per_worker : R;
  stat_worker_counts : list (Z * nat);
  stat_most_faces_worker : option Z * nat
}.

Definition status_statistics (s : faces) : statistics :=
  let total_faces := length (known_face_encodings s) in
  let unique_workers :=
    match known_face_ids s with
    | [] => 0
    | _ :: _ => size (list_to_set (known_face_ids s) : gset Z)
    end in
  let avg_faces_per_worker :=
    if Nat.ltb 0 unique_workers then (INR total_faces / INR unique_workers)%R else 0%R in
  let counts := worker_counts (known_face_ids s) in
  let most_faces_worker :=
    match counts with
    | [] => (None, 0)
    | x :: rest => let '(k, n) := max_by_count x rest in (Some k, n)
    end in
  Statistics total_faces unique_workers avg_faces_per_worker counts most_faces_worker.

(** ** Start-up *)

(** The process as [main] hands it to the server: [load_known_faces] has
    filled the globals from the disk ([init_directories] only creates the two
    image directories). *)
Definition main (cfg : config) (fs : filesystem) : world :=
  World (snd (load_known_faces cfg fs)) fs.

(** ** More properties of the index *)

(** A restart would find in the store file what is in memory now. *)
Definition in_sync (cfg : config) (w : world) : Prop :=
  snd (load_known_faces cfg (files w)) = mem w.

(** Every call of the list is served by a disk that works. *)
Definition disk_works (calls : list call) : Prop :=
  Forall (fun c => call_disk c = DiskOk) calls.

(** The encodings of the images in which exactly one face was found. *)
Fixpoint single_face_encodings (images : list (list embedding)) : list embedding :=
  match images with
  | [] => []
  | [e] :: rest => e :: single_face_encodings rest
  | _ :: rest => single_face_encodings rest
  end.

(** [counts[worker_id]] on the list of items, 0 for a missing key. *)
Fixpoint count_of (worker_id : Z) (counts : list (Z * nat)) : nat :=
  match counts with
  | [] => 0
  | (k, n) :: rest => if Z.eqb k worker_id then n else count_of worker_id rest
  end.

(** A store written without the ['metadata'] key: two faces of worker 42. *)
Definition legacy_store : store_data :=
  {| st_encodings := [E1; E2];
     st_ids := [42%Z; 42%Z];
     st_metadata := None;
     st_saved_at := "T0";
     st_version := "1.0" |}.

Definition legacy_disk : filesystem :=
  <[KNOWN_FACES_FILE CONFIG := Pickled legacy_store]> ∅.

(** ** The handlers with their form fields and image writes *)

(** The form field ['worker_id'] as the handlers see it. *)
Inductive form_worker_id :=
  | NoWorkerId                   (* the field is missing or empty *)
  | BadWorkerId (e : string)     (* [int(worker_id)] raises [ValueError(e)] *)
  | WorkerId (worker_id : Z).    (* [int(worker_id)] gives [worker_id] *)

(** One POST /enroll.  A write of the uploaded image is [None] when it goes
    through and [Some e] when it raises an exception whose text is [e]. *)
Record enroll_request := EnrollRequest {
  er_has_image : bool;                   (* ['image' in request.files] *)
  er_worker_id : form_worker_id;
  er_temp_save : option string;          (* [image_file.save(temp_path)] *)
  er_face_encodings : list embedding;    (* [detect_and_encode_faces(temp_path)] *)
  er_archive : option string             (* [image_file.seek(0)] and
                                            [image_file.save(original_path)] *)
}.

(** The whole of the handler [enroll]. *)
Definition enroll_route (cfg : config) (dk : disk_outcome) (now : nat -> string)
    (req : enroll_request) (w : world) : response * world :=
  let s := mem w in
  if negb (er_has_image req) then
    (Response 400
       [("success", JBool false);
        ("message", JStr "No image provided");
        ("code", JStr "NO_IMAGE")], w)
  else
  match er_worker_id req with
  | NoWorkerId =>
      (Response 400
         [("success", JBool false);
          ("message", JStr "No worker ID provided");
          ("code", JStr "NO_WORKER_ID")], w)
  | BadWorkerId _ =>
      (Response 400
         [("success", JBool false);
          ("message", JStr "Invalid worker ID format");
          ("code", JStr "INVALID_WORKER_ID")], w)
  | WorkerId worker_id =>
  match er_temp_save req with
  | Some e =>
      (Response 500
         [("success", JBool false);
          ("message", JStr ("Internal server error: " +:+ e));
          ("code", JStr "INTERNAL_ERROR")], w)
  | None =>
  match er_face_encodings req with
  | [] =>
      (Response 400
         [("success", JBool false);
          ("message", JStr "No face detected in the image");
          ("code", JStr "NO_FACE_DETECTED")], w)
  | _ :: _ :: _ =>
      (Response 400
         [("success", JBool false);
          ("message", JStr "Multiple faces detected. Please upload image with only one face.");
          ("code", JStr "MULTIPLE_FACES")], w)
  | [face_encoding] =>
      let worker_face_count := list_count worker_id (known_face_ids s) in
      if Nat.leb (MAX_FACES_PER_WORKER cfg) worker_face_count then
        (Response 400
           [("success", JBool false);
            ("message", JStr ("Worker already has " +:+ pretty worker_face_count
                              +:+ " faces enrolled (max: "
                              +:+ pretty (MAX_FACES_PER_WORKER cfg) +:+ ")"));
            ("code", JStr "MAX_FACES_REACHED")], w)
      else
        let encodings' := known_face_encodings s ++ [face_encoding] in
        let ids' := known_face_ids s ++ [worker_id] in
        let '(metadata', saved_at) :=
          match known_face_metadata s !! worker_id with
          | None =>
              (<[worker_id :=
                   {| first_enrolled := now 0;
                      last_enrolled := now 1;
                      total_faces := 1;
                      enrollment_dates := [now 2] |}]> (known_face_metadata s),
               now 3)
          | Some metadata =>
              (<[worker_id :=
                   {| first_enrolled := first_enrolled metadata;
                      last_enrolled := now 0;
                      total_faces := worker_face_count + 1;
                      enrollment_dates := enrollment_dates metadata ++ [now 1] |}]>
                 (known_face_metadata s),
               now 2)
          end in
        let s' := Faces encodings' ids' metadata' in
        let '(_, fs') := save_known_faces cfg dk saved_at s' (files w) in
        match er_archive req with
        | Some e =>
            (Response 500
               [("success", JBool false);
                ("message", JStr ("Internal server error: " +:+ e));
                ("code", JStr "INTERNAL_ERROR")],
             World s' fs')
        | None =>
            let original_filename :=
              "worker_" +:+ pretty worker_id +:+ "_" +:+ pretty (length encodings')
              +:+ ".jpg" in
            (Response 200
               [("success", JBool true);
                ("message", JStr "Face enrolled successfully");
                ("worker_id", JInt worker_id);
                ("face_index", jnat (length encodings' - 1));
                ("total_faces_for_worker", jnat (worker_face_count + 1));
                ("total_faces_in_system", jnat (length encodings'));
                ("image_saved_as", JStr original_filename)],
             World s' fs')
        end
  end end end.

(** One image of a POST /enroll_batch. *)
Record batch_image := BatchImage {
  bi_temp_save : option string;          (* [image_file.save(temp_path)] *)
  bi_face_encodings : list embedding     (* [detect_and_encode_faces(temp_path)] *)
}.

Record batch_request := BatchRequest {
  br_worker_id : form_worker_id;
  br_images : list batch_image           (* [request.files.getlist('images[]')] *)
}.

(** The loop over the images, stopped by the first write that raises: the
    first component is the text of that exception, if there was one, and the
    second the variables as the loop left them. *)
Fixpoint batch_loop_io (worker_id : Z) (i : nat) (images : list batch_image)
    (acc : batch_acc) : option string * batch_acc :=
  match images with
  | [] => (None, acc)
  | image :: rest =>
      match bi_temp_save image with
      | Some e => (Some e, acc)
      | None =>
          let acc' :=
            match bi_face_encodings image with
            | [face_encoding] =>
                {| b_encodings := b_encodings acc ++ [face_encoding];
                   b_ids := b_ids acc ++ [worker_id];
                   successful := successful acc + 1;
                   failed := failed acc;
                   results := results acc ++
                     [JObj [("image_index", jnat i);
                            ("status", JStr "success");
                            ("message", JStr "Face enrolled")]] |}
            | _ =>
                {| b_encodings := b_encodings acc;
                   b_ids := b_ids acc;
                   successful := successful acc;
                   failed := failed acc + 1;
                   results := results acc ++
                     [JObj [("image_index", jnat i);
                            ("status", JStr "failed");
                            ("message", JStr "No face or multiple faces detected")]] |}
            end in
          batch_loop_io worker_id (S i) rest acc'
      end
  end.

(** The whole of the handler [enroll_batch]. *)
Definition enroll_batch_route (cfg : config) (dk : disk_outcome) (now : nat -> string)
    (req : batch_request) (w : world) : response * world :=
  let s := mem w in
  match br_worker_id req with
  | NoWorkerId =>
      (Response 400
         [("success", JBool false); ("message", JStr "No worker ID provided")], w)
  | BadWorkerId e =>
      (Response 500
         [("success", JBool false);
          ("message", JStr ("Internal server error: " +:+ e))], w)
  | WorkerId worker_id =>
  match br_images req with
  | [] =>
      (Response 400
         [("success", JBool false); ("message", JStr "No images provided")], w)
  | _ :: _ =>
      match batch_loop_io worker_id 0 (br_images req)
              (BatchAcc (known_face_encodings s) (known_face_ids s) 0 0 []) with
      | (Some e, acc) =>
          (Response 500
             [("success", JBool false);
              ("message", JStr ("Internal server error: " +:+ e))],
           World (Faces (b_encodings acc) (b_ids acc) (known_face_metadata s)) (files w))
      | (None, acc) =>
          let w' :=
            if Nat.ltb 0 (successful acc) then
              let '(metadata', saved_at) :=
                match known_face_metadata s !! worker_id with
                | None =>
                    (<[worker_id :=
                         {| first_enrolled := now 0;
                            last_enrolled := now 1;
                            total_faces := successful acc;
                            enrollment_dates := [now 2] |}]> (known_face_metadata s),
                     now 3)
                | Some metadata =>
                    (<[worker_id :=
                         {| first_enrolled := first_enrolled metadata;
                            last_enrolled := now 0;
                            total_faces := total_faces metadata + successful acc;
                            enrollment_dates := enrollment_dates metadata ++ [now 1] |}]>
                       (known_face_metadata s),
                     now 2)
                end in
              let s' := Faces (b_encodings acc) (b_ids acc) metadata' in
              let '(_, fs') := save_known_faces cfg dk saved_at s' (files w) in
              World s' fs'
            else
              World (Faces (b_encodings acc) (b_ids acc) (known_face_metadata s)) (files w) in
          (Response 200
             [("success", JBool true);
              ("message", JStr ("Batch enrollment completed: " +:+ pretty (successful acc)
                                +:+ " successful, " +:+ pretty (failed acc) +:+ " failed"));
              ("worker_id", JInt worker_id);
              ("successful", jnat (successful acc));
              ("failed", jnat (failed acc));
              ("results", JList (results acc));
              ("total_faces_for_worker", jnat (list_count worker_id (b_ids acc)))],
           w')
      end
  end end.

(** Requests as the server receives them. *)
Inductive served :=
  | ServeEnroll (req : enroll_request)
  | ServeEnrollBatch (req : batch_request)
  | ServeDelete (worker_id : Z).

Record served_call := ServedCall {
  sc_request : served;
  sc_disk : disk_outcome;
  sc_now : nat -> string
}.

Definition serve (cfg : config) (c : served_call) (w : world) : response * world :=
  match sc_request c with
  | ServeEnroll req => enroll_route cfg (sc_disk c) (sc_now c) req w
  | ServeEnrollBatch req => enroll_batch_route cfg (sc_disk c) (sc_now c) req w
  | ServeDelete worker_id => delete_worker_faces cfg (sc_disk c) (sc_now c) worker_id w
  end.

Definition serve_all (cfg : config) (calls : list served_call) (w : world) : world :=
  foldl (fun w c => snd (serve cfg c w)) w calls.

(** No write of an image raises while the loop of a batch is running. *)
Definition uninterrupted (c : served_call) : Prop :=
  match sc_request c with
  | ServeEnrollBatch req => Forall (fun image => bi_temp_save image = None) (br_images req)
  | _ => True
  end.

(** The stored encodings and the query have one common length. *)
Definition same_dimension (s : faces) (face_encoding : embedding) : Prop :=
  Forall (fun e => length e = length face_encoding) (known_face_encodings s).

(** Three requests: an enrollment whose archived copy cannot be written, a
    batch of three images served while the dump fails, a deletion. *)
Definition mixed_calls : list served_call :=
  [ServedCall (ServeEnroll (EnrollRequest true (WorkerId 42) None [E1]
                              (Some "No space left on device"))) DiskOk clock;
   ServedCall (ServeEnrollBatch
                 (BatchRequest (WorkerId 7)
                    [BatchImage None [E1]; BatchImage None []; BatchImage None [E2]]))
     DumpFails clock;
   ServedCall (ServeDelete 42) DiskOk clock].

(** A batch of two images for worker 7; the second one cannot be written to
    the temporary directory. *)
Definition aborted_batch : batch_request :=
  BatchRequest (WorkerId 7)
    [BatchImage None [E1]; BatchImage (Some "No space left on device") [E2]].

(** One POST /recognize. *)
Record recognize_request := RecognizeRequest {
  rr_has_image : bool;                   (* ['image' in request.files] *)
  rr_empty_filename : bool;              (* [image_file.filename == ''] *)
  rr_temp_save : option string;          (* [image_file.save(temp_path)] *)
  rr_face_encodings : list embedding;    (* [detect_and_encode_faces(temp_path)] *)
  rr_face_locations : list (Z * Z * Z * Z)
}.

(** The whole of the handler [recognize]: the checks of the upload and the
    write of the temporary image, then [recognize] above. *)
Definition recognize_route (cfg : config) (req : recognize_request) (s : faces)
    : response :=
  if negb (rr_has_image req) then
    Response 400
      [("success", JBool false);
       ("message", JStr "No image provided");
       ("code", JStr "NO_IMAGE")]
  else if rr_empty_filename req then
    Response 400
      [("success", JBool false);
       ("message", JStr "No image selected");
       ("code", JStr "EMPTY_FILE")]
  else
    match rr_temp_save req with
    | Some e =>
        Response 500
          [("success", JBool false);
           ("message", JStr ("Internal server error: " +:+ e));
           ("code", JStr "INTERNAL_ERROR")]
    | None => recognize cfg (rr_face_encodings req) (rr_face_locations req) s
    end.

(** ** Lists *)

Lemma list_count_app worker_id (l1 l2 : list Z) :
  list_count worker_id (l1 ++ l2) = list_count worker_id l1 + list_count worker_id l2.
Proof.
  induction l1 as [|x l1 IH]; simpl; [done|]. rewrite IH. lia.
Qed.

Lemma list_count_replicate worker_id w n :
  list_count worker_id (replicate n w) = if Z.eqb w worker_id then n else 0.
Proof.
  induction n as [|n IH]; simpl.
  - by destruct (Z.eqb w worker_id).
  - rewrite IH. by destruct (Z.eqb w worker_id).
Qed.

Lemma list_count_elem_of worker_id (l : list Z) :
  worker_id ∈ l -> list_count worker_id l <> 0.
Proof.
  induction l as [|x l IH]; [by intros ?%elem_of_nil|].
  intros [->|Hin]%elem_of_cons; simpl; [rewrite Z.eqb_refl; lia|].
  specialize (IH Hin). lia.
Qed.

Lemma indices_from_shift worker_id i (ids : list Z) :
  indices_from worker_id (S i) ids = S <$> indices_from worker_id i ids.
Proof.
  revert i. induction ids as [|x ids IH]; intros i; simpl; [done|].
  destruct (Z.eqb x worker_id); simpl; by rewrite IH.
Qed.

Lemma indices_from_length worker_id i (ids : list Z) :
  length (indices_from worker_id i ids) = list_count worker_id ids.
Proof.
  revert i. induction ids as [|x ids IH]; intros i; simpl; [done|].
  destruct (Z.eqb x worker_id); simpl; by rewrite IH.
Qed.

Lemma indices_from_lower worker_id i (ids : list Z) :
  Forall (fun j => i <= j) (indices_from worker_id i ids).
Proof.
  revert i. induction ids as [|x ids IH]; intros i; simpl; [constructor|].
  assert (Forall (fun j => i <= j) (indices_from worker_id (S i) ids)) as Hrest.
  { eapply Forall_impl; [apply IH|]. simpl. lia. }
  destruct (Z.eqb x worker_id); [constructor; [lia|done]|done].
Qed.

(** Inserting an index below all the others puts it last. *)
Lemma insert_desc_below x (l : list nat) :
  Forall (fun y => x < y) l -> insert_desc x l = l ++ [x].
Proof.
  induction 1 as [|y l Hy _ IH]; simpl; [done|].
  destruct (Nat.leb_spec y x); [lia|]. by rewrite IH.
Qed.

(** The indices come out of the comprehension in increasing order, so
    sorting them in reverse is reversing them. *)
Lemma sorted_reverse_indices worker_id i (ids : list Z) :
  sorted_reverse (indices_from worker_id i ids) = reverse (indices_from worker_id i ids).
Proof.
  revert i. induction ids as [|x ids IH]; intros i; simpl; [done|].
  destruct (Z.eqb x worker_id); [|apply IH].
  simpl. rewrite IH, reverse_cons. apply insert_desc_below.
  apply Forall_reverse. eapply Forall_impl; [apply indices_from_lower|].
  simpl. lia.
Qed.

(** ** Popping the positions of one worker *)

Section Pop.
Context {A : Type}.
Implicit Types (l : list A) (indices : list nat).

Lemma pop_cons_S a l i : pop (a :: l) (S i) = (a ::.) <$> pop l i.
Proof. unfold pop. simpl. by destruct (l !! i). Qed.

Lemma pop_each_shift a l indices :
  pop_each (S <$> indices) (a :: l) = (a ::.) <$> pop_each indices l.
Proof.
  revert l. induction indices as [|i indices IH]; intros l; [done|].
  cbn [fmap list_fmap pop_each]. rewrite pop_cons_S.
  destruct (pop l i) as [l'|]; simpl; [apply IH|done].
Qed.

Lemma pop_each_app indices1 indices2 l :
  pop_each (indices1 ++ indices2) l = pop_each indices1 l ≫= pop_each indices2.
Proof.
  revert l. induction indices1 as [|i indices1 IH]; intros l; simpl; [done|].
  destruct (pop l i); simpl; [apply IH|done].
Qed.

(** Popping the positions of [worker_id], highest first, leaves the entries
    at the other positions, in their order. *)
Lemma pop_each_indices worker_id (ids : list Z) l :
  length l = length ids ->
  pop_each (reverse (indices_of worker_id ids)) l = Some (keep_others worker_id ids l).
Proof.
  unfold indices_of. revert l.
  induction ids as [|x ids IH]; intros [|a l] Hlen; simplify_eq/=; [done|].
  rewrite indices_from_shift.
  destruct (Z.eqb x worker_id).
  - rewrite reverse_cons, <- fmap_reverse, pop_each_app, pop_each_shift.
    by rewrite IH.
  - rewrite <- fmap_reverse, pop_each_shift. by rewrite IH.
Qed.

Lemma keep_others_length worker_id (ids : list Z) l :
  length l = length ids ->
  length (keep_others worker_id ids l) + list_count worker_id ids = length l.
Proof.
  revert l. induction ids as [|x ids IH]; intros [|a l] Hlen; simplify_eq/=; [done|].
  specialize (IH l Hlen). destruct (Z.eqb x worker_id); simpl; lia.
Qed.

End Pop.

Lemma pop_loop_pop_each indices encodings ids encodings' ids' :
  pop_each indices encodings = Some encodings' ->
  pop_each indices ids = Some ids' ->
  pop_loop indices encodings ids = (None, (encodings', ids')).
Proof.
  revert encodings ids.
  induction indices as [|i indices IH]; intros encodings ids He Hi; simpl in *.
  - by simplify_eq.
  - destruct (pop encodings i); [|done]. destruct (pop ids i); [|done]. by apply IH.
Qed.

Lemma keep_others_filter worker_id (ids : list Z) :
  keep_others worker_id ids ids = filter (fun wid => wid <> worker_id) ids.
Proof.
  induction ids as [|x ids IH]; simpl; [done|].
  destruct (Z.eqb_spec x worker_id) as [->|Hne].
  - by rewrite filter_cons_False by auto.
  - rewrite filter_cons_True by done. by rewrite IH.
Qed.

Lemma keep_others_zip {A} worker_id (ids : list Z) (l : list A) :
  zip (keep_others worker_id ids l) (keep_others worker_id ids ids)
  = filter (fun p => p.2 <> worker_id) (zip l ids).
Proof.
  revert l. induction ids as [|x ids IH]; intros [|a l]; simpl; try done.
  destruct (Z.eqb_spec x worker_id) as [->|Hne].
  - rewrite filter_cons_False by (simpl; auto). apply IH.
  - rewrite filter_cons_True by done. simpl. by rewrite IH.
Qed.

Lemma list_count_keep_others worker_id w (ids : list Z) :
  list_count w (keep_others worker_id ids ids)
  = if Z.eqb w worker_id then 0 else list_count w ids.
Proof.
  induction ids as [|x ids IH]; simpl; [by destruct (Z.eqb w worker_id)|].
  destruct (Z.eqb_spec x worker_id) as [->|Hne]; simpl; rewrite IH.
  - destruct (Z.eqb_spec w worker_id) as [->|Hw]; [done|].
    destruct (Z.eqb_spec worker_id w); [congruence|done].
  - destruct (Z.eqb_spec w worker_id) as [->|Hw]; [|done].
    destruct (Z.eqb_spec x worker_id); [congruence|done].
Qed.

Lemma indices_of_nil worker_id (ids : list Z) :
  indices_of worker_id ids = [] <-> list_count worker_id ids = 0.
Proof.
  unfold indices_of. rewrite <- (indices_from_length worker_id 0 ids).
  destruct (indices_from worker_id 0 ids); simpl; split; intros; done.
Qed.

(** ** Capacity *)

(** A successful single enrollment leaves the worker within the limit. *)
Lemma enroll_within_max cfg dk now worker_id face_encodings w :
  status_code (fst (enroll cfg dk now worker_id face_encodings w)) = 200 ->
  list_count worker_id
    (known_face_ids (mem (snd (enroll cfg dk now worker_id face_encodings w))))
  <= MAX_FACES_PER_WORKER cfg.
Proof.
  unfold enroll. destruct face_encodings as [|e [|e' rest]]; simpl; try done.
  destruct (Nat.leb_spec (MAX_FACES_PER_WORKER cfg)
              (list_count worker_id (known_face_ids (mem w)))) as [Hfull|Hroom];
    simpl; [done|].
  destruct (known_face_metadata (mem w) !! worker_id);
    destruct (save_known_faces _ _ _ _ _) as [ok fs']; simpl; intros _;
    rewrite list_count_app; simpl; rewrite Z.eqb_refl; lia.
Qed.

(** C1: the per-worker limit is not kept by [enroll_batch].  On the fresh
    index, with the default configuration, a batch of eleven one-face images
    for worker 7 is answered with eleven successes and leaves eleven records
    of worker 7, more than [MAX_FACES_PER_WORKER]. *)
Theorem enroll_batch_exceeds_max :
  let r := fst (enroll_batch CONFIG DiskOk clock 7 (replicate 11 [E1]) fresh) in
  let w' := snd (enroll_batch CONFIG DiskOk clock 7 (replicate 11 [E1]) fresh) in
  status_code r = 200 /\
  field "successful" (body r) = Some (jnat 11) /\
  field "failed" (body r) = Some (jnat 0) /\
  list_count 7 (known_face_ids (mem w')) = 11 /\
  MAX_FACES_PER_WORKER CONFIG < list_count 7 (known_face_ids (mem w')).
Proof.
  cbv zeta.
  assert (list_count 7
            (known_face_ids
               (mem (snd (enroll_batch CONFIG DiskOk clock 7 (replicate 11 [E1]) fresh))))
          = 11) as Hcount by reflexivity.
  rewrite Hcount. repeat split; try reflexivity. simpl. lia.
Qed.

(** C7: when the worker already holds [MAX_FACES_PER_WORKER] records (or
    more), [enroll] answers 400 without touching anything: the encodings, the
    ids, the metadata and the disk are those of before; for an image with
    exactly one face the code of the answer is [MAX_FACES_REACHED]. *)
Theorem enroll_at_capacity cfg dk now worker_id face_encodings w :
  MAX_FACES_PER_WORKER cfg <= list_count worker_id (known_face_ids (mem w)) ->
  let r := fst (enroll cfg dk now worker_id face_encodings w) in
  snd (enroll cfg dk now worker_id face_encodings w) = w /\
  status_code r = 400 /\
  field "success" (body r) = Some (JBool false) /\
  (forall e, face_encodings = [e] ->
     field "code" (body r) = Some (JStr "MAX_FACES_REACHED")).
Proof.
  intros Hfull. unfold enroll.
  destruct face_encodings as [|e [|e' rest]]; simpl.
  - repeat split; done.
  - apply Nat.leb_le in Hfull. rewrite Hfull. simpl. repeat split; done.
  - repeat split; done.
Qed.

Lemma enroll_at_capacity_witness :
  MAX_FACES_PER_WORKER CONFIG <= list_count 42 (known_face_ids (mem ten_enrolled)) /\
  snd (enroll CONFIG DiskOk clock 42 [E2] ten_enrolled) = ten_enrolled.
Proof.
  assert (MAX_FACES_PER_WORKER CONFIG
          <= list_count 42 (known_face_ids (mem ten_enrolled))) as Hfull.
  { vm_compute. lia. }
  split; [exact Hfull|].
  exact (proj1 (enroll_at_capacity CONFIG DiskOk clock 42 [E2] ten_enrolled Hfull)).
Defined.

(** ** Persistence *)

(** C8: whatever the index and whatever was on the disk, a save that
    succeeds followed by a load gives back the same encodings in the same
    order, the same ids and the same metadata. *)
Theorem load_save_round_trip cfg dk saved_at s fs :
  fst (save_known_faces cfg dk saved_at s fs) = true ->
  load_known_faces cfg (snd (save_known_faces cfg dk saved_at s fs)) = (Loaded, s).
Proof.
  destruct dk; simpl; try discriminate. intros _.
  unfold load_known_faces, pickle_dump. rewrite lookup_insert_eq.
  by destruct s.
Qed.

Lemma load_save_round_trip_witness :
  fst (save_known_faces CONFIG DiskOk "T9" (mem ten_enrolled) (files one_enrolled)) = true /\
  load_known_faces CONFIG
    (snd (save_known_faces CONFIG DiskOk "T9" (mem ten_enrolled) (files one_enrolled)))
  = (Loaded, mem ten_enrolled).
Proof.
  split; [reflexivity|].
  apply (load_save_round_trip CONFIG DiskOk "T9" (mem ten_enrolled) (files one_enrolled)).
  reflexivity.
Defined.

(** ** Deleting a worker: the two ways the handler goes *)

Lemma delete_worker_faces_absent cfg dk now worker_id w :
  list_count worker_id (known_face_ids (mem w)) = 0 ->
  delete_worker_faces cfg dk now worker_id w
  = (Response 404
       [("success", JBool false);
        ("message", JStr ("No faces found for worker " +:+ pretty worker_id))], w).
Proof.
  intros Hnone. apply indices_of_nil in Hnone.
  unfold delete_worker_faces. by rewrite Hnone.
Qed.

Lemma delete_worker_faces_found cfg dk now worker_id w :
  lock_step (mem w) ->
  list_count worker_id (known_face_ids (mem w)) <> 0 ->
  let s := mem w in
  let s' := Faces (keep_others worker_id (known_face_ids s) (known_face_encodings s))
                  (keep_others worker_id (known_face_ids s) (known_face_ids s))
                  (delete worker_id (known_face_metadata s)) in
  let removed := list_count worker_id (known_face_ids s) in
  delete_worker_faces cfg dk now worker_id w
  = (Response 200
       [("success", JBool true);
        ("message", JStr ("Deleted " +:+ pretty removed
                          +:+ " faces for worker " +:+ pretty worker_id));
        ("worker_id", JInt worker_id);
        ("faces_deleted", jnat removed)],
     World s' (snd (save_known_faces cfg dk (now 0) s' (files w)))).
Proof.
  intros Hlock Hsome. cbv zeta. unfold delete_worker_faces.
  destruct (indices_of worker_id (known_face_ids (mem w))) as [|i rest] eqn:Hidx.
  { apply indices_of_nil in Hidx. done. }
  rewrite <- Hidx. unfold indices_of at 1.
  rewrite sorted_reverse_indices.
  rewrite (pop_loop_pop_each _ _ _
             (keep_others worker_id (known_face_ids (mem w)) (known_face_encodings (mem w)))
             (keep_others worker_id (known_face_ids (mem w)) (known_face_ids (mem w))));
    [|by apply pop_each_indices..].
  unfold indices_of. rewrite indices_from_length.
  by destruct (save_known_faces _ _ _ _ _).
Qed.

(** ** The loop of [enroll_batch] *)

Lemma batch_loop_spec worker_id i images acc :
  let n := single_face_images images in
  let acc' := batch_loop worker_id i images acc in
  successful acc' = successful acc + n /\
  failed acc' = failed acc + (length images - n) /\
  b_ids acc' = b_ids acc ++ replicate n worker_id /\
  length (b_encodings acc') = length (b_encodings acc) + n /\
  n <= length images.
Proof.
  cbv zeta. revert i acc.
  induction images as [|face_encodings images IH]; intros i acc.
  - simpl. rewrite app_nil_r. repeat split; (lia || reflexivity).
  - destruct face_encodings as [|e [|e' more]]; cbn [batch_loop single_face_images];
      match goal with
      | |- context [batch_loop worker_id (S i) images ?a] =>
          destruct (IH (S i) a) as (Hs & Hf & Hids & Hlen & Hn)
      end;
      rewrite Hs, Hf, Hids, Hlen; cbn [successful failed b_ids b_encodings length];
      rewrite ?length_app, <- ?app_assoc; cbn [length app replicate];
      repeat split; (lia || reflexivity).
Qed.

(** ** Consistency of counts and metadata *)

Lemma recorded_total_insert s worker_id m w :
  from_option total_faces 0 (<[worker_id := m]> (known_face_metadata s) !! w)
  = if Z.eqb worker_id w then total_faces m else recorded_total s w.
Proof.
  unfold recorded_total. rewrite lookup_insert.
  destruct (Z.eqb_spec worker_id w); case_decide; done.
Qed.

Lemma enroll_consistent cfg dk now worker_id face_encodings w :
  consistent (mem w) ->
  consistent (mem (snd (enroll cfg dk now worker_id face_encodings w))).
Proof.
  intros [Hlock Hcount]. unfold enroll.
  destruct face_encodings as [|e [|e' more]]; simpl; try done.
  destruct (Nat.leb _ _); simpl; [done|].
  pose proof (Hcount worker_id) as Hw. unfold recorded_total in Hw.
  destruct (known_face_metadata (mem w) !! worker_id) as [m|] eqn:Hm;
    destruct (save_known_faces _ _ _ _ _) as [ok fs']; simpl; split.
  all: try (unfold lock_step in *; simpl; rewrite !length_app; simpl; lia).
  all: intros v; unfold recorded_total at 1; simpl; rewrite list_count_app; simpl;
    pose proof (Hcount v) as Hv; rewrite recorded_total_insert; simpl in *;
    destruct (Z.eqb_spec worker_id v) as [->|Hne]; lia.
Qed.

Lemma enroll_batch_consistent cfg dk now worker_id images w :
  consistent (mem w) ->
  consistent (mem (snd (enroll_batch cfg dk now worker_id images w))).
Proof.
  intros [Hlock Hcount]. unfold enroll_batch.
  destruct images as [|image images]; [done|].
  set (acc := batch_loop _ _ _ _).
  destruct (batch_loop_spec worker_id 0 (image :: images)
              (BatchAcc (known_face_encodings (mem w)) (known_face_ids (mem w)) 0 0 []))
    as (Hs & _ & Hids & Hlen & _).
  fold acc in Hs, Hids, Hlen. simpl in Hs, Hids, Hlen.
  assert (forall v, list_count v (b_ids acc)
            = list_count v (known_face_ids (mem w))
              + (if Z.eqb worker_id v then successful acc else 0)) as Hcount'.
  { intros v. rewrite Hids, list_count_app, list_count_replicate, Hs. done. }
  unfold snd.
  destruct (Nat.ltb_spec 0 (successful acc)) as [Hpos|Hzero].
  - pose proof (Hcount worker_id) as Hw. unfold recorded_total in Hw.
    destruct (known_face_metadata (mem w) !! worker_id) as [m|] eqn:Hm;
      destruct (save_known_faces _ _ _ _ _) as [ok fs']; simpl; split.
    all: try (unfold lock_step in *; simpl;
              rewrite Hlen, Hids, length_app, length_replicate; lia).
    all: intros v; unfold recorded_total at 1; simpl; rewrite Hcount';
      pose proof (Hcount v) as Hv; rewrite recorded_total_insert; simpl in *;
      destruct (Z.eqb_spec worker_id v) as [->|Hne]; lia.
  - simpl. split.
    + unfold lock_step in *. simpl. rewrite Hlen, Hids, length_app, length_replicate. lia.
    + intros v. unfold recorded_total. simpl. rewrite Hcount'.
      rewrite (Hcount v). unfold recorded_total.
      destruct (Z.eqb worker_id v); lia.
Qed.

Lemma delete_worker_faces_consistent cfg dk now worker_id w :
  consistent (mem w) ->
  consistent (mem (snd (delete_worker_faces cfg dk now worker_id w))).
Proof.
  intros [Hlock Hcount].
  destruct (decide (list_count worker_id (known_face_ids (mem w)) = 0)) as [Hnone|Hsome].
  - by rewrite delete_worker_faces_absent.
  - rewrite delete_worker_faces_found by done. simpl. split.
    + unfold lock_step in *. simpl.
      pose proof (keep_others_length worker_id
                    (known_face_ids (mem w)) (known_face_encodings (mem w)) Hlock).
      pose proof (keep_others_length worker_id
                    (known_face_ids (mem w)) (known_face_ids (mem w)) eq_refl).
      lia.
    + intros v. unfold recorded_total. simpl.
      rewrite list_count_keep_others, lookup_delete.
      destruct (Z.eqb_spec v worker_id) as [->|Hne]; case_decide;
        first [done | apply Hcount].
Qed.

Lemma handle_consistent cfg c w :
  consistent (mem w) -> consistent (mem (snd (handle cfg c w))).
Proof.
  unfold handle. destruct (call_request c);
    auto using enroll_consistent, enroll_batch_consistent, delete_worker_faces_consistent.
Qed.

Lemma run_consistent cfg calls w :
  consistent (mem w) -> consistent (mem (run cfg calls w)).
Proof.
  unfold run. revert w. induction calls as [|c calls IH]; intros w Hw; simpl; [done|].
  apply IH. by apply handle_consistent.
Qed.

Lemma consistent_no_faces : consistent no_faces.
Proof. split; [done|]. intros v. unfold recorded_total. simpl. by rewrite lookup_empty. Qed.

(** Counts that agree with the metadata add up to the number of records. *)
Lemma sum_total_faces_length (metadata : gmap Z worker_meta) (ids : list Z) :
  (forall v, list_count v ids = from_option total_faces 0 (metadata !! v)) ->
  sum_total_faces metadata = length ids.
Proof.
  revert ids. induction metadata as [|v m metadata Hfresh IH] using map_ind; intros ids Hcount.
  - unfold sum_total_faces. rewrite map_fold_empty.
    destruct ids as [|x ids]; [done|].
    specialize (Hcount x). rewrite lookup_empty in Hcount. simpl in Hcount.
    rewrite Z.eqb_refl in Hcount. done.
  - unfold sum_total_faces.
    rewrite map_fold_insert_L; [|intros; lia|done].
    fold (sum_total_faces metadata).
    rewrite (IH (keep_others v ids ids)).
    + pose proof (keep_others_length v ids ids eq_refl) as Hlen.
      specialize (Hcount v). rewrite lookup_insert_eq in Hcount. simpl in Hcount. lia.
    + intros u. rewrite list_count_keep_others.
      destruct (Z.eqb_spec u v) as [->|Hne]; [by rewrite Hfresh|].
      rewrite Hcount, lookup_insert_ne; done.
Qed.

(** *** The handlers with their image writes, and the plain ones *)

Lemma enroll_route_world cfg dk now req w :
  snd (enroll_route cfg dk now req w) = w \/
  exists worker_id,
    er_worker_id req = WorkerId worker_id /\
    snd (enroll_route cfg dk now req w)
    = snd (enroll cfg dk now worker_id (er_face_encodings req) w).
Proof.
  unfold enroll_route.
  destruct (er_has_image req); simpl; [|by left].
  destruct (er_worker_id req) as [|e|worker_id]; [by left..|].
  destruct (er_temp_save req); [by left|].
  right. exists worker_id. split; [done|]. unfold enroll.
  destruct (er_face_encodings req) as [|e [|e' more]]; [done| |done].
  destruct (Nat.leb _ _); [done|].
  destruct (known_face_metadata (mem w) !! worker_id);
    destruct (save_known_faces _ _ _ _ _); by destruct (er_archive req).
Qed.

Lemma enroll_route_plain cfg dk now worker_id face_encodings w :
  enroll_route cfg dk now (EnrollRequest true (WorkerId worker_id) None face_encodings None) w
  = enroll cfg dk now worker_id face_encodings w.
Proof.
  unfold enroll_route, enroll. simpl.
  destruct face_encodings as [|e [|e' more]]; [done| |done].
  destruct (Nat.leb _ _); [done|].
  by destruct (known_face_metadata (mem w) !! worker_id), (save_known_faces _ _ _ _ _).
Qed.

(** As long as no write raises, the loop with the writes is the plain one. *)
Lemma batch_loop_io_plain worker_id i images acc :
  Forall (fun image => bi_temp_save image = None) images ->
  batch_loop_io worker_id i images acc
  = (None, batch_loop worker_id i (bi_face_encodings <$> images) acc).
Proof.
  intros Hok. revert i acc.
  induction Hok as [|image images Himage _ IH]; intros i acc; [done|].
  cbn [batch_loop_io fmap list_fmap batch_loop]. rewrite Himage. apply IH.
Qed.

(** The loop stops at the first write that raises, with what the images
    before it have given. *)
Lemma batch_loop_io_raise worker_id i before image after e acc :
  Forall (fun image => bi_temp_save image = None) before ->
  bi_temp_save image = Some e ->
  batch_loop_io worker_id i (before ++ image :: after) acc
  = (Some e, batch_loop worker_id i (bi_face_encodings <$> before) acc).
Proof.
  intros Hok Himage. revert i acc.
  induction Hok as [|image0 before Himage0 _ IH]; intros i acc.
  - simpl. by rewrite Himage.
  - cbn [app batch_loop_io fmap list_fmap batch_loop]. rewrite Himage0. apply IH.
Qed.

Lemma enroll_batch_route_plain cfg dk now worker_id images w :
  Forall (fun image => bi_temp_save image = None) images ->
  enroll_batch_route cfg dk now (BatchRequest (WorkerId worker_id) images) w
  = enroll_batch cfg dk now worker_id (bi_face_encodings <$> images) w.
Proof.
  intros Hok. unfold enroll_batch_route, enroll_batch. simpl.
  destruct images as [|image images]; [done|].
  rewrite batch_loop_io_plain by done. done.
Qed.

Lemma serve_consistent cfg c w :
  uninterrupted c ->
  consistent (mem w) ->
  consistent (mem (snd (serve cfg c w))).
Proof.
  unfold uninterrupted, serve. intros Hok Hw.
  destruct (sc_request c) as [req|[worker_id images]|worker_id].
  - destruct (enroll_route_world cfg (sc_disk c) (sc_now c) req w)
      as [->|(worker_id & _ & ->)]; [done|by apply enroll_consistent].
  - destruct worker_id as [|e|worker_id]; [done..|].
    simpl in Hok. rewrite enroll_batch_route_plain by done.
    by apply enroll_batch_consistent.
  - by apply delete_worker_faces_consistent.
Qed.

Lemma serve_all_consistent cfg calls w :
  Forall uninterrupted calls ->
  consistent (mem w) ->
  consistent (mem (serve_all cfg calls w)).
Proof.
  unfold serve_all. intros Hok. revert w.
  induction Hok as [|c calls Hc _ IH]; intros w Hw; simpl; [done|].
  apply IH. by apply serve_consistent.
Qed.

(** C4, as the code has it: start from an index whose counts agree with its
    metadata (the empty index of a first start is one) and serve any
    sequence of enroll, enroll_batch and delete_worker_faces requests in
    which no batch is cut short by a write of an image that raises, whatever
    else the form fields, the images, the clock and the disk do.  Then every
    worker with a metadata entry has exactly [total_faces] records, every
    worker with a record has such an entry, and the [total_faces] of all
    workers add up to the number of records. *)
Theorem counts_match_after_requests cfg calls w :
  consistent (mem w) ->
  Forall uninterrupted calls ->
  let s := mem (serve_all cfg calls w) in
  (forall worker_id m,
     known_face_metadata s !! worker_id = Some m ->
     list_count worker_id (known_face_ids s) = total_faces m) /\
  (forall worker_id,
     worker_id ∈ known_face_ids s ->
     exists m, known_face_metadata s !! worker_id = Some m /\
               list_count worker_id (known_face_ids s) = total_faces m) /\
  sum_total_faces (known_face_metadata s) = length (known_face_ids s) /\
  sum_total_faces (known_face_metadata s) = length (known_face_encodings s).
Proof.
  intros Hw Hok. cbv zeta.
  destruct (serve_all_consistent cfg calls w Hok Hw) as [Hlock Hcount].
  assert (sum_total_faces (known_face_metadata (mem (serve_all cfg calls w)))
          = length (known_face_ids (mem (serve_all cfg calls w)))) as Hsum.
  { apply sum_total_faces_length, Hcount. }
  split_and!; [| |done|].
  - intros worker_id m Hm. rewrite Hcount. unfold recorded_total. by rewrite Hm.
  - intros worker_id Hin. apply list_count_elem_of in Hin.
    rewrite Hcount in Hin |- *. unfold recorded_total in *.
    destruct (known_face_metadata (mem (serve_all cfg calls w)) !! worker_id) as [m|];
      [by exists m|done].
  - rewrite Hsum. symmetry. apply Hlock.
Qed.

Lemma counts_match_after_requests_witness :
  consistent (mem fresh) /\
  Forall uninterrupted mixed_calls /\
  sum_total_faces (known_face_metadata (mem (serve_all CONFIG mixed_calls fresh)))
  = length (known_face_encodings (mem (serve_all CONFIG mixed_calls fresh))).
Proof.
  assert (Forall uninterrupted mixed_calls) as Hok.
  { unfold mixed_calls, uninterrupted. repeat constructor. }
  split; [exact consistent_no_faces|]. split; [exact Hok|].
  exact (proj2 (proj2 (proj2 (counts_match_after_requests CONFIG mixed_calls fresh
                                consistent_no_faces Hok)))).
Defined.

(** C4 as stated fails, in two ways.  The service starts on a store written
    without ['metadata'] that holds two faces of worker 42; after one more
    enrollment worker 42 has three records and a metadata entry that says
    one.  And on the empty index, a batch of two images for worker 7 whose
    second image cannot be written is answered 500 after the first face was
    appended: worker 7 has a record and no metadata entry, and the
    [total_faces] add up to 0 for one record. *)
Lemma total_faces_mismatch_counterexample :
  (let s := mem (snd (enroll_route CONFIG DiskOk clock
                        (EnrollRequest true (WorkerId 42) None [E1] None)
                        (main CONFIG legacy_disk))) in
   ~ (forall worker_id m,
        known_face_metadata s !! worker_id = Some m ->
        list_count worker_id (known_face_ids s) = total_faces m)) /\
  (let s := mem (snd (enroll_batch_route CONFIG DiskOk clock aborted_batch fresh)) in
   status_code (fst (enroll_batch_route CONFIG DiskOk clock aborted_batch fresh)) = 500 /\
   list_count 7 (known_face_ids s) = 1 /\
   known_face_metadata s !! 7%Z = None /\
   sum_total_faces (known_face_metadata s) <> length (known_face_encodings s)).
Proof.
  split.
  - cbv zeta. intros Hall.
    specialize (Hall 42%Z {| first_enrolled := clock 0; last_enrolled := clock 1;
                             total_faces := 1; enrollment_dates := [clock 2] |}
                  eq_refl).
    discriminate Hall.
  - cbv zeta. split_and!; [reflexivity..|].
    change (known_face_metadata
              (mem (snd (enroll_batch_route CONFIG DiskOk clock aborted_batch fresh))))
      with (∅ : gmap Z worker_meta).
    unfold sum_total_faces. rewrite map_fold_empty. discriminate.
Qed.

(** C6: on an index in lock-step, [delete_worker_faces] for a worker with
    records answers 200 with the number of its records, leaves exactly the
    records of the other workers, encodings still paired with their ids and
    in their order, and drops the worker's metadata entry; a second delete
    right after it answers 404.  For a worker without records it answers 404
    and changes nothing. *)
Theorem delete_worker_faces_spec cfg dk now dk2 now2 worker_id w :
  lock_step (mem w) ->
  let s := mem w in
  let r := fst (delete_worker_faces cfg dk now worker_id w) in
  let w' := snd (delete_worker_faces cfg dk now worker_id w) in
  (list_count worker_id (known_face_ids s) <> 0 ->
     status_code r = 200 /\
     field "faces_deleted" (body r) = Some (jnat (list_count worker_id (known_face_ids s))) /\
     known_face_ids (mem w') = filter (fun wid => wid <> worker_id) (known_face_ids s) /\
     zip (known_face_encodings (mem w')) (known_face_ids (mem w'))
       = filter (fun p => p.2 <> worker_id)
           (zip (known_face_encodings s) (known_face_ids s)) /\
     lock_step (mem w') /\
     known_face_metadata (mem w') = delete worker_id (known_face_metadata s) /\
     status_code (fst (delete_worker_faces cfg dk2 now2 worker_id w')) = 404) /\
  (list_count worker_id (known_face_ids s) = 0 ->
     status_code r = 404 /\ w' = w).
Proof.
  intros Hlock. cbv zeta. split; intros Hcount.
  - rewrite delete_worker_faces_found by done. simpl.
    split; [done|]. split; [done|].
    split; [apply keep_others_filter|].
    split; [apply keep_others_zip|].
    split.
    + unfold lock_step in *. simpl.
      pose proof (keep_others_length worker_id
                    (known_face_ids (mem w)) (known_face_encodings (mem w)) Hlock).
      pose proof (keep_others_length worker_id
                    (known_face_ids (mem w)) (known_face_ids (mem w)) eq_refl).
      lia.
    + split; [done|].
      rewrite delete_worker_faces_absent; [done|]. simpl.
      rewrite list_count_keep_others. by rewrite Z.eqb_refl.
  - by rewrite delete_worker_faces_absent.
Qed.

Lemma delete_worker_faces_spec_witness :
  lock_step (mem one_enrolled) /\
  list_count 42 (known_face_ids (mem one_enrolled)) <> 0 /\
  status_code
    (fst (delete_worker_faces CONFIG DiskOk clock 42
            (snd (delete_worker_faces CONFIG DiskOk clock 42 one_enrolled)))) = 404.
Proof.
  assert (lock_step (mem one_enrolled)) as Hlock by reflexivity.
  assert (list_count 42 (known_face_ids (mem one_enrolled)) <> 0) as Hsome.
  { vm_compute. lia. }
  split; [exact Hlock|]. split; [exact Hsome|].
  exact (proj2 (proj2 (proj2 (proj2 (proj2 (proj2
    (proj1 (delete_worker_faces_spec CONFIG DiskOk clock DiskOk clock 42
              one_enrolled Hlock) Hsome))))))).
Defined.

(** ** A save that fails *)




(** C3, as the code has it: [save_known_faces] works on the store file
    itself.  No other path of the disk changes at any point of a save (there
    is no temporary file and no replace); once the file is opened, a load
    ends in its error branch with the empty index, whatever the file held
    before, and that is also how a save whose dump fails leaves the disk;
    only after the dump does a load give the saved index. *)
Theorem save_writes_in_place cfg saved_at s fs :
  let path := KNOWN_FACES_FILE cfg in
  (forall fs' p, fs' ∈ save_trace cfg saved_at s fs -> p <> path -> fs' !! p = fs !! p) /\
  (exists fs_open fs_done,
     save_trace cfg saved_at s fs = [fs; fs_open; fs_done] /\
     load_known_faces cfg fs_open = (LoadError, no_faces) /\
     load_known_faces cfg fs_done = (Loaded, s) /\
     save_known_faces cfg OpenFails saved_at s fs = (false, fs) /\
     save_known_faces cfg DumpFails saved_at s fs = (false, fs_open) /\
     save_known_faces cfg DiskOk saved_at s fs = (true, fs_done)).
Proof.
  cbv zeta. split.
  - intros fs' p Hin Hp. unfold save_trace, pickle_dump, open_wb in Hin.
    rewrite !elem_of_cons, elem_of_nil in Hin.
    destruct Hin as [->|[->|[->|[]]]]; by rewrite ?lookup_insert_ne.
  - eexists _, _. split; [reflexivity|].
    unfold load_known_faces, pickle_dump, open_wb. rewrite !lookup_insert_eq.
    destruct s. done.
Qed.

(** C3 as stated fails: the disk holds the readable store written when
    worker 42 was enrolled; during the next save, right after the file is
    opened, a load finds a file it cannot read. *)
Lemma save_not_atomic_counterexample :
  readable CONFIG (files one_enrolled) /\
  ~ (forall fs', fs' ∈ save_trace CONFIG (clock 3) (mem ten_enrolled) (files one_enrolled) ->
       readable CONFIG fs').
Proof.
  split; [by vm_compute|].
  intros Hatomic.
  apply (Hatomic (open_wb (KNOWN_FACES_FILE CONFIG) (files one_enrolled))).
  - unfold save_trace. rewrite !elem_of_cons. right. by left.
  - reflexivity.
Qed.

(** ** Enrollment dates *)

(** C9: for a worker that has a metadata entry, a batch with [k >= 1]
    one-face images reports [k] successes, adds [k] to [total_faces] and
    appends one date; a single enrollment sets [total_faces] to the record
    count (one more than before) and appends one date.  After one single
    enrollment followed by a batch of two, worker 42 has fewer dates than
    faces. *)
Theorem batch_appends_one_date cfg dk now worker_id images e w m :
  known_face_metadata (mem w) !! worker_id = Some m ->
  (1 <= single_face_images images ->
   exists m',
     known_face_metadata (mem (snd (enroll_batch cfg dk now worker_id images w)))
       !! worker_id = Some m' /\
     enrollment_dates m' = enrollment_dates m ++ [now 1] /\
     total_faces m' = total_faces m + single_face_images images /\
     field "successful" (body (fst (enroll_batch cfg dk now worker_id images w)))
       = Some (jnat (single_face_images images))) /\
  (list_count worker_id (known_face_ids (mem w)) < MAX_FACES_PER_WORKER cfg ->
   exists m',
     known_face_metadata (mem (snd (enroll cfg dk now worker_id [e] w)))
       !! worker_id = Some m' /\
     enrollment_dates m' = enrollment_dates m ++ [now 1] /\
     total_faces m' = list_count worker_id (known_face_ids (mem w)) + 1) /\
  (exists calls v mv,
     known_face_metadata (mem (run CONFIG calls fresh)) !! v = Some mv /\
     length (enrollment_dates mv) < total_faces mv).
Proof.
  intros Hm. split; [|split].
  - intros Hk. unfold enroll_batch.
    destruct images as [|image images]; [simpl in Hk; lia|].
    set (acc := batch_loop _ _ _ _).
    destruct (batch_loop_spec worker_id 0 (image :: images)
                (BatchAcc (known_face_encodings (mem w)) (known_face_ids (mem w)) 0 0 []))
      as (Hs & _).
    fold acc in Hs. simpl successful in Hs. rewrite Nat.add_0_l in Hs.
    destruct (Nat.ltb_spec 0 (successful acc)) as [_|Hzero]; [|lia].
    rewrite Hm. destruct (save_known_faces _ _ _ _ _) as [ok fs'].
    eexists. simpl. rewrite lookup_insert_eq. rewrite Hs. done.
  - intros Hroom. unfold enroll.
    destruct (Nat.leb_spec (MAX_FACES_PER_WORKER cfg)
                (list_count worker_id (known_face_ids (mem w)))) as [Hfull|_]; [lia|].
    rewrite Hm. destruct (save_known_faces _ _ _ _ _) as [ok fs'].
    eexists. simpl. rewrite lookup_insert_eq. done.
  - exists [Call (Enroll 42 [E1]) DiskOk clock;
            Call (EnrollBatch 42 [[E1]; [E2]]) DiskOk clock], 42%Z.
    eexists. split; [reflexivity|]. simpl. lia.
Qed.

Lemma batch_appends_one_date_witness :
  known_face_metadata (mem one_enrolled) !! 42%Z
    = Some {| first_enrolled := "T0"; last_enrolled := "T1"; total_faces := 1;
              enrollment_dates := ["T2"] |} /\
  exists m',
    known_face_metadata
      (mem (snd (enroll_batch CONFIG DiskOk clock 42 [[E1]; [E2]] one_enrolled)))
      !! 42%Z = Some m' /\
    enrollment_dates m' = ["T2"] ++ [clock 1] /\
    total_faces m' = 1 + 2 /\
    field "successful"
      (body (fst (enroll_batch CONFIG DiskOk clock 42 [[E1]; [E2]] one_enrolled)))
      = Some (jnat 2).
Proof.
  assert (known_face_metadata (mem one_enrolled) !! 42%Z
          = Some {| first_enrolled := "T0"; last_enrolled := "T1"; total_faces := 1;
                    enrollment_dates := ["T2"] |}) as Hm by reflexivity.
  split; [exact Hm|].
  apply (proj1 (batch_appends_one_date CONFIG DiskOk clock 42 [[E1]; [E2]] E1
                  one_enrolled _ Hm)).
  simpl. lia.
Defined.

(** ** Matching *)

Section Argmin.
Open Scope R_scope.

(** The scan of [argmin_from] keeps a first minimum of what it has seen. *)
Lemma argmin_from_first_min (seen l : list R) best_i best :
  is_first_min seen best_i best ->
  exists d, is_first_min (seen ++ l) (argmin_from l (length seen) best_i best) d.
Proof.
  revert seen best_i best.
  induction l as [|x l IH]; intros seen best_i best (Hbest & Hmin & Hfirst).
  - exists best. rewrite app_nil_r. done.
  - assert (best_i < length seen)%nat as Hin by (by eapply lookup_lt_Some).
    rewrite (cons_middle x seen l), app_assoc. simpl.
    replace (S (length seen)) with (length (seen ++ [x])) by (rewrite length_app; simpl; lia).
    destruct (Rlt_dec x best) as [Hlt|Hge]; apply IH; split_and!.
    + by rewrite lookup_app_r, Nat.sub_diag.
    + intros j d' Hj. apply lookup_app_Some in Hj as [Hj|[_ Hj]].
      * apply Hmin in Hj. lra.
      * destruct (j - length seen)%nat; simplify_eq/=. lra.
    + intros j d' Hlt' Hj. rewrite lookup_app_l in Hj by done.
      apply Hmin in Hj. lra.
    + by rewrite lookup_app_l.
    + intros j d' Hj. apply lookup_app_Some in Hj as [Hj|[_ Hj]].
      * by apply Hmin in Hj.
      * destruct (j - length seen)%nat; simplify_eq/=. lra.
    + intros j d' Hlt' Hj. rewrite lookup_app_l in Hj by lia.
      by eapply Hfirst.
Qed.

Lemma argmin_first_min (l : list R) :
  l <> [] -> exists d, is_first_min l (argmin l) d.
Proof.
  destruct l as [|x l]; [done|]. intros _.
  apply (argmin_from_first_min [x] l 0%nat x).
  split_and!; [done|..].
  - intros [|j] d' Hj; simplify_eq/=. lra.
  - intros j d' Hj. lia.
Qed.

End Argmin.

(** C5: on the empty index [find_best_match] returns [(None, 0.0)] for
    every query and threshold.  On a non-empty index in lock-step it picks a
    stored encoding whose Euclidean distance [d] to the query is the least of
    all, the first such in index order, and with [confidence = 1 - d] returns
    the worker id stored at that position and the confidence when
    [confidence >= threshold], and [None] with the same confidence
    otherwise. *)
Theorem find_best_match_spec cfg s face_encoding threshold :
  length (known_face_ids s) = length (known_face_encodings s) ->
  let thr := default (FACE_MATCH_THRESHOLD cfg) threshold in
  let result := find_best_match cfg s face_encoding threshold in
  (known_face_encodings s = [] -> result = Ok (None, 0%R)) /\
  (known_face_encodings s <> [] ->
   exists i e worker_id,
     known_face_encodings s !! i = Some e /\
     known_face_ids s !! i = Some worker_id /\
     (forall j e', known_face_encodings s !! j = Some e' ->
        (euclidean_distance e face_encoding <= euclidean_distance e' face_encoding)%R) /\
     (forall j e', j < i -> known_face_encodings s !! j = Some e' ->
        (euclidean_distance e face_encoding < euclidean_distance e' face_encoding)%R) /\
     let confidence := (1 - euclidean_distance e face_encoding)%R in
     ((confidence >= thr)%R -> result = Ok (Some worker_id, confidence)) /\
     ((confidence < thr)%R -> result = Ok (None, confidence))).
Proof.
  intros Hlock. cbv zeta. unfold find_best_match. split.
  - by intros ->.
  - intros Hsome.
    destruct (known_face_encodings s) as [|e0 encodings] eqn:Hencs; [done|].
    rewrite <- Hencs in *.
    destruct (argmin_first_min (face_distance (known_face_encodings s) face_encoding))
      as (d & Hd & Hmin & Hfirst).
    { rewrite Hencs. done. }
    set (i := argmin (face_distance (known_face_encodings s) face_encoding)) in *.
    unfold face_distance in Hd, Hmin, Hfirst. rewrite list_lookup_fmap in Hd.
    destruct (known_face_encodings s !! i) as [e|] eqn:He; simplify_eq/=.
    assert (is_Some (known_face_ids s !! i)) as [worker_id Hid].
    { apply lookup_lt_is_Some. rewrite Hlock. by eapply lookup_lt_Some. }
    exists i, e, worker_id. split_and!; try done.
    + intros j e' Hj. apply (Hmin j). by rewrite list_lookup_fmap, Hj.
    + intros j e' Hlt Hj. apply (Hfirst j); [done|]. by rewrite list_lookup_fmap, Hj.
    + intros Hconf. unfold face_distance. rewrite list_lookup_fmap.
      fold (face_distance (known_face_encodings s) face_encoding). fold i.
      rewrite He. simpl. rewrite Hid.
      destruct (Rge_dec _ _); [done|contradiction].
    + intros Hconf. unfold face_distance. rewrite list_lookup_fmap.
      fold (face_distance (known_face_encodings s) face_encoding). fold i.
      rewrite He. simpl.
      destruct (Rge_dec _ _); [lra|done].
Qed.

Lemma distance_E1_E2 : euclidean_distance E1 E2 = 5%R.
Proof.
  unfold euclidean_distance, E1, E2, sum_R. simpl.
  replace ((0 - 3) * (0 - 3) + ((0 - 4) * (0 - 4) + 0))%R with (5 * 5)%R by lra.
  apply sqrt_square. lra.
Qed.

Lemma find_best_match_far threshold :
  find_best_match CONFIG (mem one_enrolled) E2 threshold
  = if Rge_dec (1 - 5) (default (FACE_MATCH_THRESHOLD CONFIG) threshold)
    then Ok (Some 42%Z, (1 - 5)%R) else Ok (None, (1 - 5)%R).
Proof.
  unfold find_best_match.
  change (known_face_encodings (mem one_enrolled)) with [E1].
  change (known_face_ids (mem one_enrolled)) with [42%Z].
  unfold face_distance. simpl. rewrite distance_E1_E2.
  by destruct (Rge_dec _ _).
Qed.

Lemma find_best_match_spec_witness :
  length (known_face_ids (mem one_enrolled))
    = length (known_face_encodings (mem one_enrolled)) /\
  exists i e worker_id,
    known_face_encodings (mem one_enrolled) !! i = Some e /\
    known_face_ids (mem one_enrolled) !! i = Some worker_id /\
    ((1 - euclidean_distance e E2 < FACE_MATCH_THRESHOLD CONFIG)%R ->
     find_best_match CONFIG (mem one_enrolled) E2 None
     = Ok (None, (1 - euclidean_distance e E2)%R)).
Proof.
  split; [reflexivity|].
  destruct (proj2 (find_best_match_spec CONFIG (mem one_enrolled) E2 None eq_refl))
    as (i & e & worker_id & He & Hid & _ & _ & _ & Hbelow); [done|].
  exists i, e, worker_id. auto.
Defined.

(** C10: the confidence is [1 - best_distance] as it comes, also below
    zero.  With the one stored encoding [E1] and the query [E2], at distance
    5, [find_best_match] returns the confidence [-4] for every threshold. *)
Theorem confidence_not_clamped :
  exists s q,
    known_face_encodings s <> [] /\
    (forall e, e ∈ known_face_encodings s -> (1 < euclidean_distance e q)%R) /\
    forall threshold, exists worker confidence,
      find_best_match CONFIG s q threshold = Ok (worker, confidence) /\
      confidence = (1 - 5)%R /\
      (confidence < 0)%R.
Proof.
  exists (mem one_enrolled), E2. split_and!.
  - done.
  - change (known_face_encodings (mem one_enrolled)) with [E1].
    intros e He. apply list_elem_of_singleton in He as ->.
    rewrite distance_E1_E2. lra.
  - intros threshold. rewrite find_best_match_far.
    destruct (Rge_dec _ _); eexists _, _; (split; [reflexivity|split; [reflexivity|lra]]).
Qed.

(** ** More on matching *)

Lemma euclidean_distance_nonneg (a b : embedding) : (0 <= euclidean_distance a b)%R.
Proof. apply sqrt_pos. Qed.

Lemma euclidean_distance_self (e : embedding) : euclidean_distance e e = 0%R.
Proof.
  unfold euclidean_distance.
  assert (sum_R (zip_with (fun x y => (x - y) * (x - y))%R e e) = 0%R) as ->.
  { unfold sum_R. induction e as [|x e IH]; simpl; [done|]. rewrite IH. lra. }
  apply sqrt_0.
Qed.

(** What [find_best_match] does on a non-empty index, lock-step or not. *)
Lemma find_best_match_cases cfg s face_encoding threshold :
  known_face_encodings s <> [] ->
  exists i e,
    known_face_encodings s !! i = Some e /\
    (forall j e', known_face_encodings s !! j = Some e' ->
       (euclidean_distance e face_encoding <= euclidean_distance e' face_encoding)%R) /\
    (forall j e', j < i -> known_face_encodings s !! j = Some e' ->
       (euclidean_distance e face_encoding < euclidean_distance e' face_encoding)%R) /\
    find_best_match cfg s face_encoding threshold
    = if Rge_dec (1 - euclidean_distance e face_encoding)
           (default (FACE_MATCH_THRESHOLD cfg) threshold)
      then match known_face_ids s !! i with
           | Some worker_id =>
               Ok (Some worker_id, (1 - euclidean_distance e face_encoding)%R)
           | None => Raise "list index out of range"
           end
      else Ok (None, (1 - euclidean_distance e face_encoding)%R).
Proof.
  intros Hsome. unfold find_best_match.
  destruct (known_face_encodings s) as [|e0 encodings] eqn:Hencs; [done|].
  rewrite <- Hencs in *.
  destruct (argmin_first_min (face_distance (known_face_encodings s) face_encoding))
    as (d & Hd & Hmin & Hfirst).
  { rewrite Hencs. done. }
  set (i := argmin (face_distance (known_face_encodings s) face_encoding)) in *.
  rewrite Hd. unfold face_distance in Hd, Hmin, Hfirst. rewrite list_lookup_fmap in Hd.
  destruct (known_face_encodings s !! i) as [e|] eqn:He; simplify_eq/=.
  exists i, e. split_and!; try done.
  - intros j e' Hj. apply (Hmin j). by rewrite list_lookup_fmap, Hj.
  - intros j e' Hlt Hj. apply (Hfirst j); [done|]. by rewrite list_lookup_fmap, Hj.
Qed.

Lemma find_best_match_near :
  find_best_match CONFIG (mem one_enrolled) E1 None = Ok (Some 42%Z, (1 - 0)%R).
Proof.
  unfold find_best_match.
  change (known_face_encodings (mem one_enrolled)) with [E1].
  change (known_face_ids (mem one_enrolled)) with [42%Z].
  unfold face_distance. simpl. rewrite euclidean_distance_self.
  destruct (Rge_dec _ _) as [|Hno]; [done|]. exfalso. apply Hno. lra.
Qed.

(** X1: a worker id returned by [find_best_match] is the id stored at the
    position of a stored encoding nearest to the query; it is one of the
    enrolled ids, and the confidence returned with it is one minus that
    distance and lies between the threshold and 1. *)
Theorem match_is_enrolled_and_confident cfg s face_encoding threshold worker_id confidence :
  find_best_match cfg s face_encoding threshold = Ok (Some worker_id, confidence) ->
  worker_id ∈ known_face_ids s /\
  (default (FACE_MATCH_THRESHOLD cfg) threshold <= confidence <= 1)%R /\
  exists i e,
    known_face_encodings s !! i = Some e /\
    known_face_ids s !! i = Some worker_id /\
    confidence = (1 - euclidean_distance e face_encoding)%R /\
    (forall e', e' ∈ known_face_encodings s ->
       (euclidean_distance e face_encoding <= euclidean_distance e' face_encoding)%R).
Proof.
  intros Hres.
  destruct (decide (known_face_encodings s = [])) as [Hnil|Hsome].
  { unfold find_best_match in Hres. rewrite Hnil in Hres. done. }
  destruct (find_best_match_cases cfg s face_encoding threshold Hsome)
    as (i & e & He & Hmin & _ & Heq).
  rewrite Heq in Hres.
  destruct (Rge_dec _ _) as [Hge|]; [|done].
  destruct (known_face_ids s !! i) as [v|] eqn:Hid; simplify_eq.
  pose proof (euclidean_distance_nonneg e face_encoding).
  split_and!; [by eapply list_elem_of_lookup_2|lra|lra|].
  exists i, e. split_and!; try done.
  intros e' [j Hj]%list_elem_of_lookup. by eapply Hmin.
Qed.

Lemma match_is_enrolled_and_confident_witness :
  find_best_match CONFIG (mem one_enrolled) E1 None = Ok (Some 42%Z, (1 - 0)%R) /\
  42%Z ∈ known_face_ids (mem one_enrolled).
Proof.
  split; [exact find_best_match_near|].
  exact (proj1 (match_is_enrolled_and_confident CONFIG (mem one_enrolled) E1 None
                  42%Z (1 - 0)%R find_best_match_near)).
Defined.

(** X2: whatever the index, the query and the threshold, a confidence
    returned by [find_best_match] is at most 1. *)
Theorem confidence_at_most_one cfg s face_encoding threshold found confidence :
  find_best_match cfg s face_encoding threshold = Ok (found, confidence) ->
  (confidence <= 1)%R.
Proof.
  intros Hres.
  destruct (decide (known_face_encodings s = [])) as [Hnil|Hsome].
  { unfold find_best_match in Hres. rewrite Hnil in Hres. simplify_eq. lra. }
  destruct (find_best_match_cases cfg s face_encoding threshold Hsome)
    as (i & e & _ & _ & _ & Heq).
  rewrite Heq in Hres.
  pose proof (euclidean_distance_nonneg e face_encoding).
  destruct (Rge_dec _ _); [destruct (known_face_ids s !! i)|]; simplify_eq; lra.
Qed.

Lemma confidence_at_most_one_witness :
  find_best_match CONFIG (mem one_enrolled) E1 None = Ok (Some 42%Z, (1 - 0)%R) /\
  (1 - 0 <= 1)%R.
Proof.
  split; [exact find_best_match_near|].
  exact (confidence_at_most_one CONFIG (mem one_enrolled) E1 None (Some 42%Z) (1 - 0)%R
           find_best_match_near).
Defined.

(** X3: when the stored encodings and the query all have the same length
    and there are at least as many ids as encodings, [find_best_match] raises
    no exception. *)
Theorem find_best_match_never_raises cfg s face_encoding threshold :
  same_dimension s face_encoding ->
  length (known_face_encodings s) <= length (known_face_ids s) ->
  exists found confidence,
    find_best_match cfg s face_encoding threshold = Ok (found, confidence).
Proof.
  intros _ Hlen.
  destruct (decide (known_face_encodings s = [])) as [Hnil|Hsome].
  { unfold find_best_match. rewrite Hnil. by eexists _, _. }
  destruct (find_best_match_cases cfg s face_encoding threshold Hsome)
    as (i & e & He & _ & _ & ->).
  assert (is_Some (known_face_ids s !! i)) as [worker_id ->].
  { apply lookup_lt_is_Some. apply lookup_lt_Some in He. lia. }
  destruct (Rge_dec _ _); by eexists _, _.
Qed.

Lemma find_best_match_never_raises_witness :
  same_dimension (mem ten_enrolled) E2 /\
  length (known_face_encodings (mem ten_enrolled))
    <= length (known_face_ids (mem ten_enrolled)) /\
  exists found confidence,
    find_best_match CONFIG (mem ten_enrolled) E2 None = Ok (found, confidence).
Proof.
  assert (same_dimension (mem ten_enrolled) E2) as Hdim.
  { unfold same_dimension.
    change (known_face_encodings (mem ten_enrolled)) with (replicate 10 E1).
    apply Forall_replicate. reflexivity. }
  assert (length (known_face_encodings (mem ten_enrolled))
          <= length (known_face_ids (mem ten_enrolled))) as Hlen.
  { vm_compute. lia. }
  split; [exact Hdim|]. split; [exact Hlen|].
  exact (find_best_match_never_raises CONFIG (mem ten_enrolled) E2 None Hdim Hlen).
Defined.

(** X4: on an index with at least as many ids as encodings, a query equal
    to a stored encoding is matched with confidence 1 under every threshold
    up to 1; the worker returned is the one at the first stored encoding at
    distance 0 from the query. *)
Theorem enrolled_encoding_matches cfg s face_encoding threshold :
  length (known_face_encodings s) <= length (known_face_ids s) ->
  face_encoding ∈ known_face_encodings s ->
  (default (FACE_MATCH_THRESHOLD cfg) threshold <= 1)%R ->
  exists i e worker_id,
    known_face_encodings s !! i = Some e /\
    known_face_ids s !! i = Some worker_id /\
    euclidean_distance e face_encoding = 0%R /\
    (forall j e', j < i -> known_face_encodings s !! j = Some e' ->
       (0 < euclidean_distance e' face_encoding)%R) /\
    find_best_match cfg s face_encoding threshold = Ok (Some worker_id, 1%R).
Proof.
  intros Hlen Hin Hthr.
  assert (known_face_encodings s <> []) as Hsome by (intros Hnil; rewrite Hnil in Hin; by apply elem_of_nil in Hin).
  destruct (find_best_match_cases cfg s face_encoding threshold Hsome)
    as (i & e & He & Hmin & Hfirst & Heq).
  assert (is_Some (known_face_ids s !! i)) as [worker_id Hid].
  { apply lookup_lt_is_Some. apply lookup_lt_Some in He. lia. }
  assert (euclidean_distance e face_encoding = 0%R) as Hzero.
  { apply list_elem_of_lookup in Hin as [j Hj]. apply Hmin in Hj.
    rewrite euclidean_distance_self in Hj.
    pose proof (euclidean_distance_nonneg e face_encoding). lra. }
  exists i, e, worker_id. split_and!; try done.
  - intros j e' Hlt Hj. rewrite <- Hzero. by eapply Hfirst.
  - rewrite Heq, Hid, Hzero. rewrite Rminus_0_r. clear Heq.
    destruct (Rge_dec _ _) as [|Hno]; [done|]. exfalso. apply Hno. lra.
Qed.

Lemma enrolled_encoding_matches_witness :
  length (known_face_encodings (mem one_enrolled))
    <= length (known_face_ids (mem one_enrolled)) /\
  E1 ∈ known_face_encodings (mem one_enrolled) /\
  (default (FACE_MATCH_THRESHOLD CONFIG) None <= 1)%R /\
  exists i e worker_id,
    known_face_encodings (mem one_enrolled) !! i = Some e /\
    known_face_ids (mem one_enrolled) !! i = Some worker_id /\
    find_best_match CONFIG (mem one_enrolled) E1 None = Ok (Some worker_id, 1%R).
Proof.
  assert (length (known_face_encodings (mem one_enrolled))
          <= length (known_face_ids (mem one_enrolled))) as Hlen.
  { vm_compute. lia. }
  assert (E1 ∈ known_face_encodings (mem one_enrolled)) as Hin.
  { change (known_face_encodings (mem one_enrolled)) with [E1]. by apply list_elem_of_singleton. }
  assert (default (FACE_MATCH_THRESHOLD CONFIG) None <= 1)%R as Hthr.
  { simpl. lra. }
  split_and!; [exact Hlen|exact Hin|exact Hthr|].
  destruct (enrolled_encoding_matches CONFIG (mem one_enrolled) E1 None Hlen Hin Hthr)
    as (i & e & worker_id & He & Hid & _ & _ & Hres).
  by exists i, e, worker_id.
Defined.

(** X5: a match found under a threshold is found, with the same worker and
    confidence, under every lower threshold. *)
Theorem lower_threshold_keeps_match cfg s face_encoding t t' worker_id confidence :
  find_best_match cfg s face_encoding (Some t) = Ok (Some worker_id, confidence) ->
  (t' <= t)%R ->
  find_best_match cfg s face_encoding (Some t') = Ok (Some worker_id, confidence).
Proof.
  intros Hres Hle.
  destruct (decide (known_face_encodings s = [])) as [Hnil|Hsome].
  { unfold find_best_match in Hres. rewrite Hnil in Hres. done. }
  destruct (find_best_match_cases cfg s face_encoding (Some t) Hsome)
    as (i & e & He & Hmin & Hfirst & Heq).
  destruct (find_best_match_cases cfg s face_encoding (Some t') Hsome)
    as (i' & e' & He' & Hmin' & Hfirst' & Heq').
  assert (i = i') as <-.
  { destruct (Nat.lt_trichotomy i i') as [Hlt|[->|Hgt]]; [|done|].
    - pose proof (Hfirst' i e Hlt He). pose proof (Hmin i' e' He'). lra.
    - pose proof (Hfirst i' e' Hgt He'). pose proof (Hmin' i e He). lra. }
  simplify_eq. rewrite Heq in Hres. rewrite Heq'. simpl in *.
  destruct (Rge_dec _ t) as [Hge|]; [|done].
  destruct (Rge_dec _ t') as [|Hno]; [done|]. exfalso. apply Hno. lra.
Qed.

Lemma lower_threshold_keeps_match_witness :
  find_best_match CONFIG (mem one_enrolled) E1 (Some (6 / 10)%R)
    = Ok (Some 42%Z, (1 - 0)%R) /\
  (0 <= 6 / 10)%R /\
  find_best_match CONFIG (mem one_enrolled) E1 (Some 0%R) = Ok (Some 42%Z, (1 - 0)%R).
Proof.
  assert (find_best_match CONFIG (mem one_enrolled) E1 (Some (6 / 10)%R)
          = Ok (Some 42%Z, (1 - 0)%R)) as Hres by exact find_best_match_near.
  assert (0 <= 6 / 10)%R as Hle by lra.
  split_and!; [exact Hres|exact Hle|].
  exact (lower_threshold_keeps_match CONFIG (mem one_enrolled) E1 (6 / 10)%R 0%R
           42%Z (1 - 0)%R Hres Hle).
Defined.

(** ** Recognition and the index *)

Lemma list_count_zero_not_elem worker_id (l : list Z) :
  list_count worker_id l = 0 -> worker_id ∉ l.
Proof. intros Hzero Hin. by apply list_count_elem_of in Hin. Qed.

Lemma find_best_match_elem cfg s face_encoding threshold worker_id confidence :
  find_best_match cfg s face_encoding threshold = Ok (Some worker_id, confidence) ->
  worker_id ∈ known_face_ids s /\
  (default (FACE_MATCH_THRESHOLD cfg) threshold <= confidence <= 1)%R.
Proof.
  intros Hres.
  destruct (decide (known_face_encodings s = [])) as [Hnil|Hsome].
  { unfold find_best_match in Hres. rewrite Hnil in Hres. done. }
  destruct (find_best_match_cases cfg s face_encoding threshold Hsome)
    as (i & e & He & _ & _ & Heq).
  rewrite Heq in Hres. clear Heq.
  destruct (Rge_dec _ _) as [Hge|]; [|done].
  destruct (known_face_ids s !! i) as [v|] eqn:Hid; simplify_eq.
  pose proof (euclidean_distance_nonneg e face_encoding).
  split; [by eapply list_elem_of_lookup_2|lra].
Qed.

(** What a 200 answer of [recognize] comes from. *)
Lemma recognize_200 cfg face_encodings face_locations s :
  status_code (recognize cfg face_encodings face_locations s) = 200 ->
  exists e worker_id confidence,
    face_encodings = [e] /\
    find_best_match cfg s e None = Ok (Some worker_id, confidence) /\
    body (recognize cfg face_encodings face_locations s)
    = [("success", JBool true);
       ("worker_id", JInt worker_id);
       ("confidence", JNum confidence);
       ("message", JStr "Face recognized successfully");
       ("metadata", match known_face_metadata s !! worker_id with
                    | Some m => meta_json m
                    | None => JObj []
                    end);
       ("face_location", from_option location_json JNull (head face_locations))].
Proof.
  unfold recognize. destruct face_encodings as [|e [|e' more]]; simpl; try done.
  destruct (find_best_match cfg s e None) as [[[worker_id|] confidence]|msg] eqn:Hres;
    simpl; try done.
  intros _. by exists e, worker_id, confidence.
Qed.

Lemma delete_worker_faces_gone cfg dk now worker_id w :
  lock_step (mem w) ->
  list_count worker_id
    (known_face_ids (mem (snd (delete_worker_faces cfg dk now worker_id w)))) = 0.
Proof.
  intros Hlock.
  destruct (decide (list_count worker_id (known_face_ids (mem w)) = 0)) as [Hnone|Hsome].
  - by rewrite delete_worker_faces_absent.
  - rewrite delete_worker_faces_found by done. simpl.
    rewrite list_count_keep_others. by rewrite Z.eqb_refl.
Qed.

Lemma lock_step_one_enrolled : lock_step (mem one_enrolled).
Proof. reflexivity. Qed.

Lemma consistent_one_enrolled : consistent (mem one_enrolled).
Proof. apply run_consistent, consistent_no_faces. Qed.

Lemma recognize_near_200 :
  status_code (recognize CONFIG [E1] [] (mem one_enrolled)) = 200.
Proof. unfold recognize. by rewrite find_best_match_near. Qed.

(** X6: when [recognize] answers 200 on an index whose counts agree with
    its metadata, the worker it names is enrolled, the confidence is between
    the configured threshold and 1, and the metadata in the answer is that
    worker's entry, whose [total_faces] is the number of the worker's
    records (never the empty default). *)
Theorem recognize_success cfg face_encodings face_locations s :
  consistent s ->
  status_code (recognize cfg face_encodings face_locations s) = 200 ->
  let r := recognize cfg face_encodings face_locations s in
  exists worker_id confidence m,
    field "worker_id" (body r) = Some (JInt worker_id) /\
    field "confidence" (body r) = Some (JNum confidence) /\
    field "metadata" (body r) = Some (meta_json m) /\
    worker_id ∈ known_face_ids s /\
    (FACE_MATCH_THRESHOLD cfg <= confidence <= 1)%R /\
    known_face_metadata s !! worker_id = Some m /\
    total_faces m = list_count worker_id (known_face_ids s).
Proof.
  intros [_ Hcount] H200. cbv zeta.
  destruct (recognize_200 _ _ _ _ H200) as (e & worker_id & confidence & -> & Hres & ->).
  apply find_best_match_elem in Hres as [Hin Hconf].
  pose proof (list_count_elem_of _ _ Hin) as Hpos.
  specialize (Hcount worker_id). unfold recorded_total in Hcount.
  destruct (known_face_metadata s !! worker_id) as [m|] eqn:Hm; simpl in Hcount; [|done].
  exists worker_id, confidence, m. done.
Qed.

Lemma recognize_success_witness :
  consistent (mem one_enrolled) /\
  status_code (recognize CONFIG [E1] [] (mem one_enrolled)) = 200 /\
  exists worker_id confidence m,
    field "worker_id" (body (recognize CONFIG [E1] [] (mem one_enrolled)))
      = Some (JInt worker_id) /\
    field "confidence" (body (recognize CONFIG [E1] [] (mem one_enrolled)))
      = Some (JNum confidence) /\
    field "metadata" (body (recognize CONFIG [E1] [] (mem one_enrolled)))
      = Some (meta_json m).
Proof.
  split; [exact consistent_one_enrolled|]. split; [exact recognize_near_200|].
  destruct (recognize_success CONFIG [E1] [] (mem one_enrolled)
              consistent_one_enrolled recognize_near_200)
    as (worker_id & confidence & m & Hw & Hc & Hm & _).
  by exists worker_id, confidence, m.
Defined.

(** The answers of [recognize] when there are at least as many ids as
    encodings. *)
Lemma recognize_codes cfg face_encodings face_locations s :
  length (known_face_encodings s) <= length (known_face_ids s) ->
  let code := status_code (recognize cfg face_encodings face_locations s) in
  code <> 500 /\
  (face_encodings = [] -> code = 404) /\
  (1 < length face_encodings -> code = 400) /\
  (length face_encodings = 1 -> code = 200 \/ code = 404).
Proof.
  intros Hlen. cbv zeta. unfold recognize.
  destruct face_encodings as [|e [|e' more]]; simpl.
  - split_and!; (done || lia).
  - destruct (find_best_match cfg s e None) as [[[worker_id|] confidence]|msg] eqn:Hres;
      simpl.
    + split_and!; (done || lia || auto).
    + split_and!; (done || lia || auto).
    + destruct (find_best_match_cases cfg s e None) as (i & e0 & He & _ & _ & Heq).
      { intros Hnil. unfold find_best_match in Hres. rewrite Hnil in Hres. done. }
      rewrite Heq in Hres. clear Heq.
      assert (is_Some (known_face_ids s !! i)) as [v Hv].
      { apply lookup_lt_is_Some. apply lookup_lt_Some in He. lia. }
      rewrite Hv in Hres. by destruct (Rge_dec _ _).
  - split_and!; (done || lia).
Qed.

(** X7: when the stored encodings and the encodings found in the image all
    have the same length and there are at least as many ids as encodings,
    the handler [recognize] answers 500 exactly when the write of the
    temporary image raises.  When it does not, an upload with a file name
    is answered 404 when no face was found, 400 when several were, and 200
    or 404 for a single face. *)
Theorem recognize_never_500 cfg req s :
  (forall e, e ∈ rr_face_encodings req -> same_dimension s e) ->
  length (known_face_encodings s) <= length (known_face_ids s) ->
  let code := status_code (recognize_route cfg req s) in
  (code = 500 <->
     rr_has_image req = true /\ rr_empty_filename req = false /\
     rr_temp_save req <> None) /\
  (rr_has_image req = true -> rr_empty_filename req = false ->
   rr_temp_save req = None ->
     (rr_face_encodings req = [] -> code = 404) /\
     (1 < length (rr_face_encodings req) -> code = 400) /\
     (length (rr_face_encodings req) = 1 -> code = 200 \/ code = 404)).
Proof.
  intros _ Hlen. cbv zeta.
  destruct (recognize_codes cfg (rr_face_encodings req) (rr_face_locations req) s Hlen)
    as (Hno500 & Hnone & Hmany & Hone).
  unfold recognize_route.
  destruct (rr_has_image req); simpl.
  2: { split; [|done]. split; [done|]. by intros (? & _). }
  destruct (rr_empty_filename req); simpl.
  { split; [|done]. split; [done|]. by intros (_ & ? & _). }
  destruct (rr_temp_save req) as [e|]; simpl.
  - split; [|done]. split; [done|]. done.
  - split; [|done]. split; [done|]. by intros (_ & _ & ?).
Qed.

Lemma recognize_never_500_witness :
  (forall e, e ∈ rr_face_encodings (RecognizeRequest true false None [E2] []) ->
     same_dimension (mem one_enrolled) e) /\
  length (known_face_encodings (mem one_enrolled))
    <= length (known_face_ids (mem one_enrolled)) /\
  status_code (recognize_route CONFIG (RecognizeRequest true false None [E2] [])
                 (mem one_enrolled)) <> 500.
Proof.
  assert (forall e, e ∈ rr_face_encodings (RecognizeRequest true false None [E2] []) ->
            same_dimension (mem one_enrolled) e) as Hdim.
  { simpl. intros e ->%list_elem_of_singleton. unfold same_dimension.
    change (known_face_encodings (mem one_enrolled)) with [E1].
    repeat constructor. }
  assert (length (known_face_encodings (mem one_enrolled))
          <= length (known_face_ids (mem one_enrolled))) as Hlen.
  { vm_compute. lia. }
  split; [exact Hdim|]. split; [exact Hlen|].
  intros H500.
  apply (proj1 (recognize_never_500 CONFIG (RecognizeRequest true false None [E2] [])
                  (mem one_enrolled) Hdim Hlen)) in H500.
  by destruct H500 as (_ & _ & ?).
Defined.

(** X8: after [delete_worker_faces] for a worker on an index in lock-step,
    that worker is returned by no [find_best_match] and named by no 200
    answer of [recognize], whatever the query, the threshold and the
    configuration. *)
Theorem deleted_worker_not_matched cfg dk now worker_id w :
  lock_step (mem w) ->
  let s' := mem (snd (delete_worker_faces cfg dk now worker_id w)) in
  (forall cfg' face_encoding threshold confidence,
     find_best_match cfg' s' face_encoding threshold <> Ok (Some worker_id, confidence)) /\
  (forall cfg' face_encodings face_locations,
     status_code (recognize cfg' face_encodings face_locations s') = 200 ->
     field "worker_id" (body (recognize cfg' face_encodings face_locations s'))
     <> Some (JInt worker_id)).
Proof.
  intros Hlock. cbv zeta.
  pose proof (list_count_zero_not_elem _ _
                (delete_worker_faces_gone cfg dk now worker_id w Hlock)) as Hgone.
  split.
  - intros cfg' face_encoding threshold confidence Hres.
    apply find_best_match_elem in Hres as [Hin _]. done.
  - intros cfg' face_encodings face_locations H200.
    destruct (recognize_200 _ _ _ _ H200) as (e & v & confidence & _ & Hres & ->).
    apply find_best_match_elem in Hres as [Hin _].
    simpl. intros Heq. simplify_eq. done.
Qed.

Lemma deleted_worker_not_matched_witness :
  lock_step (mem one_enrolled) /\
  find_best_match CONFIG
    (mem (snd (delete_worker_faces CONFIG DiskOk clock 42 one_enrolled))) E1 None
  <> Ok (Some 42%Z, 1%R).
Proof.
  split; [exact lock_step_one_enrolled|].
  exact (proj1 (deleted_worker_not_matched CONFIG DiskOk clock 42 one_enrolled
                  lock_step_one_enrolled) CONFIG E1 None 1%R).
Defined.

(** ** Listing a worker's faces *)

Lemma elem_of_indices_from worker_id i (ids : list Z) j :
  j ∈ indices_from worker_id i ids <-> exists k, j = i + k /\ ids !! k = Some worker_id.
Proof.
  revert i. induction ids as [|x ids IH]; intros i; simpl.
  - split; [by intros ?%elem_of_nil|by intros (k & _ & ?)].
  - destruct (Z.eqb_spec x worker_id) as [->|Hne].
    + rewrite elem_of_cons, IH. split.
      * intros [->|(k & -> & Hk)]; [exists 0|exists (S k)]; split; (done || lia).
      * intros ([|k] & -> & Hk); [left; lia|right; exists k; split; (done || lia)].
    + rewrite IH. split.
      * intros (k & -> & Hk). exists (S k). split; (done || lia).
      * intros ([|k] & -> & Hk); simplify_eq/=. exists k. split; (done || lia).
Qed.

Lemma indices_from_sorted worker_id i (ids : list Z) :
  StronglySorted lt (indices_from worker_id i ids).
Proof.
  revert i. induction ids as [|x ids IH]; intros i; simpl; [constructor|].
  destruct (Z.eqb x worker_id); [|apply IH].
  constructor; [apply IH|].
  eapply Forall_impl; [apply (indices_from_lower worker_id (S i) ids)|]. simpl. lia.
Qed.

Lemma indices_from_app worker_id i (l1 l2 : list Z) :
  indices_from worker_id i (l1 ++ l2)
  = indices_from worker_id i l1 ++ indices_from worker_id (i + length l1) l2.
Proof.
  revert i. induction l1 as [|x l1 IH]; intros i; simpl.
  - by rewrite Nat.add_0_r.
  - rewrite IH. replace (S i + length l1) with (i + S (length l1)) by lia.
    by destruct (Z.eqb x worker_id).
Qed.

(** X9: [get_worker_faces] lists exactly the positions of [known_face_ids]
    that hold the worker, in increasing order, and reports their number, the
    first and the last; it answers 404 exactly when the worker has no
    record. *)
Theorem get_worker_faces_spec worker_id s :
  let r := get_worker_faces worker_id s in
  let face_indices := indices_of worker_id (known_face_ids s) in
  (forall j, j ∈ face_indices <-> known_face_ids s !! j = Some worker_id) /\
  StronglySorted lt face_indices /\
  length face_indices = list_count worker_id (known_face_ids s) /\
  (status_code r = 404 <-> list_count worker_id (known_face_ids s) = 0) /\
  (status_code r = 200 <-> list_count worker_id (known_face_ids s) <> 0) /\
  (status_code r = 200 ->
     field "face_count" (body r) = Some (jnat (list_count worker_id (known_face_ids s))) /\
     field "face_indices" (body r) = Some (JList (jnat <$> face_indices)) /\
     (exists first_index, head face_indices = Some first_index /\
        field "first_face_index" (body r) = Some (jnat first_index)) /\
     (exists last_index, last face_indices = Some last_index /\
        field "last_face_index" (body r) = Some (jnat last_index))).
Proof.
  cbv zeta. split_and!.
  - intros j. unfold indices_of. rewrite elem_of_indices_from. split.
    + by intros (k & -> & Hk).
    + intros Hj. by exists j.
  - apply indices_from_sorted.
  - apply indices_from_length.
  - rewrite <- indices_of_nil. unfold get_worker_faces.
    by destruct (indices_of worker_id (known_face_ids s)).
  - rewrite <- indices_of_nil. unfold get_worker_faces.
    by destruct (indices_of worker_id (known_face_ids s)).
  - unfold get_worker_faces.
    rewrite <- (indices_from_length worker_id 0 (known_face_ids s)).
    fold (indices_of worker_id (known_face_ids s)).
    destruct (indices_of worker_id (known_face_ids s)) as [|i rest] eqn:Hidx; [done|].
    intros _. simpl field. split_and!; try done.
    + by exists i.
    + destruct (last (i :: rest)) as [last_index|] eqn:Hlast.
      * by exists last_index.
      * by apply last_None in Hlast.
Qed.

(** X10: on an index whose counts agree with its metadata, the metadata in
    a 200 answer of [get_worker_faces] is the worker's entry and its
    [total_faces] is the [face_count] of the same answer. *)
Theorem get_worker_faces_metadata worker_id s :
  consistent s ->
  status_code (get_worker_faces worker_id s) = 200 ->
  exists m,
    known_face_metadata s !! worker_id = Some m /\
    field "metadata" (body (get_worker_faces worker_id s)) = Some (meta_json m) /\
    field "face_count" (body (get_worker_faces worker_id s)) = Some (jnat (total_faces m)).
Proof.
  intros [_ Hcount]. unfold get_worker_faces.
  pose proof (indices_from_length worker_id 0 (known_face_ids s)) as Hlen.
  fold (indices_of worker_id (known_face_ids s)) in Hlen.
  destruct (indices_of worker_id (known_face_ids s)) as [|i rest]; [done|].
  intros _. specialize (Hcount worker_id). unfold recorded_total in Hcount.
  rewrite <- Hlen in Hcount.
  destruct (known_face_metadata s !! worker_id) as [m|]; [|done].
  exists m. simpl in *. by rewrite Hcount.
Qed.

Lemma get_worker_faces_metadata_witness :
  consistent (mem one_enrolled) /\
  status_code (get_worker_faces 42 (mem one_enrolled)) = 200 /\
  exists m,
    known_face_metadata (mem one_enrolled) !! 42%Z = Some m /\
    field "face_count" (body (get_worker_faces 42 (mem one_enrolled)))
      = Some (jnat (total_faces m)).
Proof.
  assert (status_code (get_worker_faces 42 (mem one_enrolled)) = 200) as H200
    by reflexivity.
  split; [exact consistent_one_enrolled|]. split; [exact H200|].
  destruct (get_worker_faces_metadata 42 (mem one_enrolled) consistent_one_enrolled H200)
    as (m & Hm & _ & Hcount).
  by exists m.
Defined.

(** X11: after a 200 answer of [enroll] on an index in lock-step,
    [get_worker_faces] for that worker answers 200, its [last_face_index] is
    the [face_index] the enrollment reported and its [face_count] is the
    reported [total_faces_for_worker]. *)
Theorem enroll_then_get_worker_faces cfg dk now worker_id face_encodings w :
  lock_step (mem w) ->
  status_code (fst (enroll cfg dk now worker_id face_encodings w)) = 200 ->
  let r := fst (enroll cfg dk now worker_id face_encodings w) in
  let r' := get_worker_faces worker_id
              (mem (snd (enroll cfg dk now worker_id face_encodings w))) in
  status_code r' = 200 /\
  field "last_face_index" (body r') = field "face_index" (body r) /\
  field "face_count" (body r') = field "total_faces_for_worker" (body r) /\
  field "face_index" (body r) = Some (jnat (length (known_face_ids (mem w)))).
Proof.
  intros Hlock. unfold lock_step in Hlock. cbv zeta. unfold enroll.
  destruct face_encodings as [|e [|e' more]]; simpl; try done.
  destruct (Nat.leb _ _); simpl; [done|]. intros _.
  assert (indices_of worker_id (known_face_ids (mem w) ++ [worker_id])
          = indices_of worker_id (known_face_ids (mem w))
            ++ [length (known_face_ids (mem w))]) as Hidx.
  { unfold indices_of. rewrite indices_from_app. simpl. by rewrite Z.eqb_refl. }
  assert (forall metadata,
    let r' := get_worker_faces worker_id
                (Faces (known_face_encodings (mem w) ++ [e])
                       (known_face_ids (mem w) ++ [worker_id]) metadata) in
    status_code r' = 200 /\
    field "last_face_index" (body r')
      = Some (jnat (length (known_face_encodings (mem w) ++ [e]) - 1)) /\
    field "face_count" (body r')
      = Some (jnat (list_count worker_id (known_face_ids (mem w)) + 1)) /\
    Some (jnat (length (known_face_encodings (mem w) ++ [e]) - 1))
      = Some (jnat (length (known_face_ids (mem w))))) as Hget.
  { intros metadata. cbv zeta. unfold get_worker_faces. simpl known_face_ids.
    rewrite Hidx.
    destruct (indices_of worker_id (known_face_ids (mem w))
              ++ [length (known_face_ids (mem w))]) as [|i rest] eqn:Happ.
    { by destruct (indices_of worker_id (known_face_ids (mem w))). }
    rewrite <- Happ. simpl field. rewrite last_snoc, !length_app. simpl.
    unfold indices_of. rewrite indices_from_length, Hlock.
    replace (length (known_face_ids (mem w)) + 1 - 1)
      with (length (known_face_ids (mem w))) by lia.
    done. }
  destruct (known_face_metadata (mem w) !! worker_id);
    destruct (save_known_faces _ _ _ _ _) as [ok fs']; simpl; apply Hget.
Qed.

Lemma enroll_then_get_worker_faces_witness :
  lock_step (mem one_enrolled) /\
  status_code (fst (enroll CONFIG DiskOk clock 42 [E2] one_enrolled)) = 200 /\
  field "last_face_index"
    (body (get_worker_faces 42 (mem (snd (enroll CONFIG DiskOk clock 42 [E2] one_enrolled)))))
  = field "face_index" (body (fst (enroll CONFIG DiskOk clock 42 [E2] one_enrolled))).
Proof.
  assert (status_code (fst (enroll CONFIG DiskOk clock 42 [E2] one_enrolled)) = 200)
    as H200 by reflexivity.
  split; [exact lock_step_one_enrolled|]. split; [exact H200|].
  exact (proj1 (proj2 (enroll_then_get_worker_faces CONFIG DiskOk clock 42 [E2]
                         one_enrolled lock_step_one_enrolled H200))).
Defined.

(** ** What the mutating handlers change *)

Lemma batch_loop_lists worker_id i images acc :
  b_encodings (batch_loop worker_id i images acc)
    = b_encodings acc ++ single_face_encodings images /\
  length (results (batch_loop worker_id i images acc))
    = length (results acc) + length images /\
  length (single_face_encodings images) = single_face_images images.
Proof.
  revert i acc. induction images as [|face_encodings images IH]; intros i acc.
  - simpl. rewrite app_nil_r. repeat split; (lia || reflexivity).
  - destruct face_encodings as [|e [|e' more]];
      cbn [batch_loop single_face_encodings single_face_images];
      match goal with
      | |- context [batch_loop worker_id (S i) images ?a] =>
          destruct (IH (S i) a) as (Hencs & Hres & Hlen)
      end;
      rewrite Hencs, Hres; cbn [b_encodings results length];
      rewrite ?length_app, <- ?app_assoc; cbn [length app];
      repeat split; (lia || reflexivity).
Qed.


(** What [enroll_batch] reports and appends when no write raises. *)
Lemma enroll_batch_plain_accounting cfg dk now worker_id images w :
  let r := fst (enroll_batch cfg dk now worker_id images w) in
  let w' := snd (enroll_batch cfg dk now worker_id images w) in
  let n := single_face_images images in
  (images = [] -> status_code r = 400 /\ w' = w) /\
  (images <> [] ->
     status_code r = 200 /\
     field "successful" (body r) = Some (jnat n) /\
     field "failed" (body r) = Some (jnat (length images - n)) /\
     (exists rs, field "results" (body r) = Some (JList rs) /\ length rs = length images) /\
     field "total_faces_for_worker" (body r)
       = Some (jnat (list_count worker_id (known_face_ids (mem w)) + n)) /\
     known_face_encodings (mem w')
       = known_face_encodings (mem w) ++ single_face_encodings images /\
     known_face_ids (mem w') = known_face_ids (mem w) ++ replicate n worker_id /\
     (forall v, v <> worker_id ->
        known_face_metadata (mem w') !! v = known_face_metadata (mem w) !! v)).
Proof.
  cbv zeta. split; [by intros ->|]. intros Hsome. unfold enroll_batch.
  destruct images as [|image images]; [done|].
  set (acc := batch_loop _ _ _ _).
  destruct (batch_loop_spec worker_id 0 (image :: images)
              (BatchAcc (known_face_encodings (mem w)) (known_face_ids (mem w)) 0 0 []))
    as (Hs & Hf & Hids & _ & _).
  destruct (batch_loop_lists worker_id 0 (image :: images)
              (BatchAcc (known_face_encodings (mem w)) (known_face_ids (mem w)) 0 0 []))
    as (Hencs & Hres & _).
  fold acc in Hs, Hf, Hids, Hencs, Hres.
  cbn [successful failed b_ids b_encodings results] in Hs, Hf, Hids, Hencs, Hres.
  rewrite Nat.add_0_l in Hs, Hf.
  assert (list_count worker_id (b_ids acc)
          = list_count worker_id (known_face_ids (mem w))
            + single_face_images (image :: images)) as Hcount.
  { rewrite Hids, list_count_app, list_count_replicate. by rewrite Z.eqb_refl. }
  cbn [fst snd status_code body field String.eqb Ascii.eqb Bool.eqb].
  rewrite Hs, Hf, Hcount.
  split_and!; try done.
  - exists (results acc). split; [done|]. rewrite Hres. simpl. lia.
  - destruct (Nat.ltb _ _); [|done].
    by destruct (known_face_metadata (mem w) !! worker_id),
                (save_known_faces _ _ _ _ _).
  - destruct (Nat.ltb _ _); [|done].
    by destruct (known_face_metadata (mem w) !! worker_id),
                (save_known_faces _ _ _ _ _).
  - intros v Hv. destruct (Nat.ltb _ _); [|done].
    destruct (known_face_metadata (mem w) !! worker_id),
             (save_known_faces _ _ _ _ _); simpl; by rewrite lookup_insert_ne.
Qed.

Lemma bi_face_encodings_nil (images : list batch_image) :
  bi_face_encodings <$> images = [] -> images = [].
Proof. by destruct images. Qed.

(** X13: the handler [enroll_batch] answers 400 and changes nothing when
    the worker id or the images are missing, and 500, changing nothing, when
    the worker id is no integer.  When no write of an image raises it answers
    200 for any non-empty batch; with [n] the number of images showing
    exactly one face, it reports [n] successes and [len(images) - n]
    failures, one result per image, appends the encodings of those [n]
    images in their order and [n] copies of the worker id, reports the
    worker's earlier count plus [n], and leaves the metadata of every other
    worker as it was.  When the write of an image raises it answers 500: the
    faces of the images before that one stay appended, the metadata is what
    it was and nothing is saved. *)
Theorem enroll_batch_accounting cfg dk now req w :
  let r := fst (enroll_batch_route cfg dk now req w) in
  let w' := snd (enroll_batch_route cfg dk now req w) in
  let images := bi_face_encodings <$> br_images req in
  let n := single_face_images images in
  (br_worker_id req = NoWorkerId -> status_code r = 400 /\ w' = w) /\
  (forall e, br_worker_id req = BadWorkerId e -> status_code r = 500 /\ w' = w) /\
  (forall worker_id,
     br_worker_id req = WorkerId worker_id -> br_images req = [] ->
     status_code r = 400 /\ w' = w) /\
  (forall worker_id,
     br_worker_id req = WorkerId worker_id -> br_images req <> [] ->
     Forall (fun image => bi_temp_save image = None) (br_images req) ->
     status_code r = 200 /\
     field "successful" (body r) = Some (jnat n) /\
     field "failed" (body r) = Some (jnat (length (br_images req) - n)) /\
     (exists rs, field "results" (body r) = Some (JList rs) /\
                 length rs = length (br_images req)) /\
     field "total_faces_for_worker" (body r)
       = Some (jnat (list_count worker_id (known_face_ids (mem w)) + n)) /\
     known_face_encodings (mem w')
       = known_face_encodings (mem w) ++ single_face_encodings images /\
     known_face_ids (mem w') = known_face_ids (mem w) ++ replicate n worker_id /\
     (forall v, v <> worker_id ->
        known_face_metadata (mem w') !! v = known_face_metadata (mem w) !! v)) /\
  (forall worker_id before image after e,
     br_worker_id req = WorkerId worker_id ->
     br_images req = before ++ image :: after ->
     Forall (fun image => bi_temp_save image = None) before ->
     bi_temp_save image = Some e ->
     status_code r = 500 /\
     known_face_encodings (mem w')
       = known_face_encodings (mem w)
         ++ single_face_encodings (bi_face_encodings <$> before) /\
     known_face_ids (mem w')
       = known_face_ids (mem w)
         ++ replicate (single_face_images (bi_face_encodings <$> before)) worker_id /\
     known_face_metadata (mem w') = known_face_metadata (mem w) /\
     files w' = files w).
Proof.
  cbv zeta. destruct req as [form_id images]. cbn [br_worker_id br_images].
  split_and!.
  - by intros ->.
  - by intros e ->.
  - by intros worker_id -> ->.
  - intros worker_id -> Hsome Hok. rewrite enroll_batch_route_plain by done.
    assert (bi_face_encodings <$> images <> []) as Hsome'.
    { intros Hnil. by apply bi_face_encodings_nil in Hnil. }
    destruct (enroll_batch_plain_accounting cfg dk now worker_id
                (bi_face_encodings <$> images) w) as [_ Hplain].
    destruct (Hplain Hsome') as (H200 & Hs & Hf & (rs & Hrs & Hlen) & Hrest).
    rewrite length_fmap in Hf, Hlen.
    split_and!; [done|done|done|by exists rs|apply Hrest..].
  - intros worker_id before image after e -> -> Hok Himage.
    unfold enroll_batch_route. cbn [br_worker_id br_images].
    destruct (before ++ image :: after) as [|image0 images0] eqn:Himages.
    { by destruct before. }
    rewrite <- Himages. rewrite (batch_loop_io_raise _ _ _ _ _ e) by done.
    destruct (batch_loop_spec worker_id 0 (bi_face_encodings <$> before)
                (BatchAcc (known_face_encodings (mem w)) (known_face_ids (mem w)) 0 0 []))
      as (_ & _ & Hids & _ & _).
    destruct (batch_loop_lists worker_id 0 (bi_face_encodings <$> before)
                (BatchAcc (known_face_encodings (mem w)) (known_face_ids (mem w)) 0 0 []))
      as (Hencs & _ & _).
    done.
Qed.

(** X14: on an index in lock-step, [delete_worker_faces] for one worker
    leaves every other worker with the same number of records and the same
    metadata, and afterwards [get_worker_faces] answers 404 for the deleted
    worker. *)
Theorem delete_leaves_others cfg dk now worker_id w :
  lock_step (mem w) ->
  let w' := snd (delete_worker_faces cfg dk now worker_id w) in
  (forall v, v <> worker_id ->
     list_count v (known_face_ids (mem w')) = list_count v (known_face_ids (mem w)) /\
     known_face_metadata (mem w') !! v = known_face_metadata (mem w) !! v) /\
  status_code (get_worker_faces worker_id (mem w')) = 404.
Proof.
  intros Hlock. cbv zeta. split.
  - intros v Hv.
    destruct (decide (list_count worker_id (known_face_ids (mem w)) = 0)) as [Hnone|Hsome].
    + by rewrite delete_worker_faces_absent.
    + rewrite delete_worker_faces_found by done. simpl.
      rewrite list_count_keep_others, lookup_delete_ne by done.
      by destruct (Z.eqb_spec v worker_id).
  - pose proof (delete_worker_faces_gone cfg dk now worker_id w Hlock) as Hgone.
    apply indices_of_nil in Hgone. unfold get_worker_faces. by rewrite Hgone.
Qed.

Lemma delete_leaves_others_witness :
  lock_step (mem one_enrolled) /\
  status_code
    (get_worker_faces 42
       (mem (snd (delete_worker_faces CONFIG DiskOk clock 42 one_enrolled)))) = 404.
Proof.
  split; [exact lock_step_one_enrolled|].
  exact (proj2 (delete_leaves_others CONFIG DiskOk clock 42 one_enrolled
                  lock_step_one_enrolled)).
Defined.

(** ** The disk and restarts *)

Lemma in_sync_saved cfg saved_at s fs :
  in_sync cfg (World s (snd (save_known_faces cfg DiskOk saved_at s fs))).
Proof.
  unfold in_sync, load_known_faces. simpl. unfold pickle_dump.
  rewrite lookup_insert_eq. by destruct s.
Qed.

Lemma handle_in_sync cfg c w :
  lock_step (mem w) ->
  in_sync cfg w ->
  call_disk c = DiskOk ->
  in_sync cfg (snd (handle cfg c w)).
Proof.
  intros Hlock Hsync Hdisk. unfold handle. rewrite Hdisk.
  destruct (call_request c) as [worker_id face_encodings|worker_id images|worker_id].
  - unfold enroll. destruct face_encodings as [|e [|e' more]]; simpl; try done.
    destruct (Nat.leb _ _); simpl; [done|].
    destruct (known_face_metadata (mem w) !! worker_id); apply in_sync_saved.
  - unfold enroll_batch. destruct images as [|image images]; [done|].
    set (acc := batch_loop _ _ _ _).
    destruct (batch_loop_spec worker_id 0 (image :: images)
                (BatchAcc (known_face_encodings (mem w)) (known_face_ids (mem w)) 0 0 []))
      as (Hs & _ & Hids & _ & _).
    destruct (batch_loop_lists worker_id 0 (image :: images)
                (BatchAcc (known_face_encodings (mem w)) (known_face_ids (mem w)) 0 0 []))
      as (Hencs & _ & Hlen).
    fold acc in Hs, Hids, Hencs. cbn [successful b_ids b_encodings] in Hs, Hids, Hencs.
    unfold snd.
    destruct (Nat.ltb_spec 0 (successful acc)) as [Hpos|Hzero].
    + destruct (known_face_metadata (mem w) !! worker_id); apply in_sync_saved.
    + assert (single_face_images (image :: images) = 0) as Hn by lia.
      rewrite Hn in Hids, Hlen. apply nil_length_inv in Hlen.
      rewrite Hlen in Hencs. simpl in Hids. rewrite app_nil_r in Hids, Hencs.
      rewrite Hids, Hencs. unfold in_sync in *. simpl. rewrite Hsync. by destruct (mem w).
  - destruct (decide (list_count worker_id (known_face_ids (mem w)) = 0)) as [Hnone|Hsome].
    + by rewrite delete_worker_faces_absent.
    + rewrite delete_worker_faces_found by done. apply in_sync_saved.
Qed.

Lemma run_cons cfg c calls w :
  run cfg (c :: calls) w = run cfg calls (snd (handle cfg c w)).
Proof. reflexivity. Qed.

(** X15: start from a process whose counts agree with its metadata and
    whose store file holds what is in memory (the process [main] starts on
    an empty disk is one).  After any sequence of enroll, enroll_batch and
    delete_worker_faces requests served while the disk works, a restart
    ([main] on the disk as it is then) gives back exactly the index that was
    in memory. *)
Theorem restart_restores_index cfg calls w :
  consistent (mem w) ->
  in_sync cfg w ->
  disk_works calls ->
  mem (main cfg (files (run cfg calls w))) = mem (run cfg calls w).
Proof.
  intros Hcons Hsync Hdisk. change (in_sync cfg (run cfg calls w)).
  revert w Hcons Hsync. induction Hdisk as [|c calls Hc _ IH]; intros w Hcons Hsync.
  - done.
  - rewrite run_cons. apply IH.
    + by apply handle_consistent.
    + apply handle_in_sync; [apply Hcons|done|done].
Qed.

Lemma restart_restores_index_witness :
  consistent (mem (main CONFIG ∅)) /\
  in_sync CONFIG (main CONFIG ∅) /\
  disk_works [Call (Enroll 42 [E1]) DiskOk clock;
              Call (EnrollBatch 7 [[E1]; []; [E2]]) DiskOk clock;
              Call (DeleteWorkerFaces 42) DiskOk clock] /\
  mem (main CONFIG
         (files (run CONFIG
                   [Call (Enroll 42 [E1]) DiskOk clock;
                    Call (EnrollBatch 7 [[E1]; []; [E2]]) DiskOk clock;
                    Call (DeleteWorkerFaces 42) DiskOk clock] (main CONFIG ∅))))
  = mem (run CONFIG
           [Call (Enroll 42 [E1]) DiskOk clock;
            Call (EnrollBatch 7 [[E1]; []; [E2]]) DiskOk clock;
            Call (DeleteWorkerFaces 42) DiskOk clock] (main CONFIG ∅)).
Proof.
  assert (consistent (mem (main CONFIG ∅))) as Hcons by exact consistent_no_faces.
  assert (in_sync CONFIG (main CONFIG ∅)) as Hsync by reflexivity.
  assert (disk_works [Call (Enroll 42 [E1]) DiskOk clock;
                      Call (EnrollBatch 7 [[E1]; []; [E2]]) DiskOk clock;
                      Call (DeleteWorkerFaces 42) DiskOk clock]) as Hdisk.
  { repeat constructor. }
  split_and!; [exact Hcons|exact Hsync|exact Hdisk|].
  exact (restart_restores_index CONFIG _ (main CONFIG ∅) Hcons Hsync Hdisk).
Defined.


(** X17: enroll a face on an index in lock-step, none of whose encodings is
    at distance 0 from the new one, and get a 200.  Then [recognize] on the
    same encoding answers 200 with that worker and confidence 1, provided
    the configured threshold is at most 1. *)
Theorem enroll_then_recognize cfg dk now worker_id e face_locations w :
  lock_step (mem w) ->
  status_code (fst (enroll cfg dk now worker_id [e] w)) = 200 ->
  (forall e', e' ∈ known_face_encodings (mem w) -> (0 < euclidean_distance e' e)%R) ->
  (FACE_MATCH_THRESHOLD cfg <= 1)%R ->
  let r := recognize cfg [e] face_locations (mem (snd (enroll cfg dk now worker_id [e] w))) in
  status_code r = 200 /\
  field "worker_id" (body r) = Some (JInt worker_id) /\
  field "confidence" (body r) = Some (JNum 1%R).
Proof.
  intros Hlock H200 Hnew Hthr. cbv zeta.
  set (s' := mem (snd (enroll cfg dk now worker_id [e] w))).
  assert (known_face_encodings s' = known_face_encodings (mem w) ++ [e] /\
          known_face_ids s' = known_face_ids (mem w) ++ [worker_id]) as [Hencs Hids].
  { revert H200. subst s'. unfold enroll. simpl.
    destruct (Nat.leb _ _); simpl; [done|]. intros _.
    by destruct (known_face_metadata (mem w) !! worker_id),
                (save_known_faces _ _ _ _ _). }
  assert (find_best_match cfg s' e None = Ok (Some worker_id, 1%R)) as Hres.
  { destruct (find_best_match_cases cfg s' e None) as (i & e0 & He0 & Hmin & _ & Heq).
    { rewrite Hencs. by destruct (known_face_encodings (mem w)). }
    assert (euclidean_distance e0 e = 0%R) as Hzero.
    { pose proof (Hmin (length (known_face_encodings (mem w))) e) as Hle.
      rewrite Hencs, list_lookup_middle in Hle by done.
      specialize (Hle eq_refl). rewrite euclidean_distance_self in Hle.
      pose proof (euclidean_distance_nonneg e0 e). lra. }
    assert (i = length (known_face_encodings (mem w))) as ->.
    { rewrite Hencs in He0. apply lookup_app_Some in He0 as [Hold|[Hge Hlast]].
      - apply list_elem_of_lookup_2, Hnew in Hold. lra.
      - apply lookup_lt_Some in Hlast. simpl in Hlast. lia. }
    rewrite Heq, Hzero, Rminus_0_r, Hids, Hlock, list_lookup_middle by done.
    clear Heq. destruct (Rge_dec _ _) as [|Hno]; [done|].
    exfalso. apply Hno. simpl. lra. }
  unfold recognize. by rewrite Hres.
Qed.

Lemma enroll_then_recognize_witness :
  lock_step (mem one_enrolled) /\
  status_code (fst (enroll CONFIG DiskOk clock 7 [E2] one_enrolled)) = 200 /\
  (forall e', e' ∈ known_face_encodings (mem one_enrolled) ->
     (0 < euclidean_distance e' E2)%R) /\
  (FACE_MATCH_THRESHOLD CONFIG <= 1)%R /\
  field "worker_id"
    (body (recognize CONFIG [E2] []
             (mem (snd (enroll CONFIG DiskOk clock 7 [E2] one_enrolled)))))
  = Some (JInt 7).
Proof.
  assert (status_code (fst (enroll CONFIG DiskOk clock 7 [E2] one_enrolled)) = 200)
    as H200 by reflexivity.
  assert (forall e', e' ∈ known_face_encodings (mem one_enrolled) ->
            (0 < euclidean_distance e' E2)%R) as Hnew.
  { change (known_face_encodings (mem one_enrolled)) with [E1].
    intros e' ->%list_elem_of_singleton. rewrite distance_E1_E2. lra. }
  assert (FACE_MATCH_THRESHOLD CONFIG <= 1)%R as Hthr by (simpl; lra).
  split_and!; [exact lock_step_one_enrolled|exact H200|exact Hnew|exact Hthr|].
  exact (proj1 (proj2 (enroll_then_recognize CONFIG DiskOk clock 7 E2 [] one_enrolled
                         lock_step_one_enrolled H200 Hnew Hthr))).
Defined.

(** ** The statistics of [status] *)

Lemma count_of_bump v worker_id (counts : list (Z * nat)) :
  count_of v (bump worker_id counts)
  = count_of v counts + (if Z.eqb worker_id v then 1 else 0).
Proof.
  induction counts as [|[k n] counts IH]; simpl.
  - destruct (Z.eqb worker_id v); lia.
  - destruct (Z.eqb_spec k worker_id) as [->|Hne]; simpl.
    + destruct (Z.eqb worker_id v); lia.
    + destruct (Z.eqb_spec k v) as [->|Hkv]; [|apply IH].
      destruct (Z.eqb_spec worker_id v); [congruence|lia].
Qed.

Lemma keys_bump worker_id (counts : list (Z * nat)) :
  (bump worker_id counts).*1
  = if decide (worker_id ∈ counts.*1) then counts.*1 else counts.*1 ++ [worker_id].
Proof.
  induction counts as [|[k n] counts IH]; csimpl.
  - done.
  - destruct (Z.eqb_spec k worker_id) as [->|Hne]; csimpl.
    + rewrite decide_True by apply list_elem_of_here. done.
    + rewrite IH. destruct (decide (worker_id ∈ counts.*1)) as [Hin|Hout].
      * rewrite decide_True by (by apply list_elem_of_further). done.
      * rewrite decide_False; [done|]. intros [?|?]%elem_of_cons; congruence.
Qed.

Lemma sum_bump worker_id (counts : list (Z * nat)) :
  sum_list (bump worker_id counts).*2 = S (sum_list counts.*2).
Proof.
  induction counts as [|[k n] counts IH]; csimpl; [done|].
  destruct (Z.eqb k worker_id); csimpl; [lia|]. rewrite IH. lia.
Qed.

(** The loop of [worker_counts], started on any dict. *)
Lemma worker_counts_from (ids : list Z) (counts : list (Z * nat)) :
  let counts' := foldl (fun c worker_id => bump worker_id c) counts ids in
  (forall v, count_of v counts' = count_of v counts + list_count v ids) /\
  (NoDup counts.*1 -> NoDup counts'.*1) /\
  (forall v, v ∈ counts'.*1 <-> v ∈ counts.*1 \/ v ∈ ids) /\
  sum_list counts'.*2 = sum_list counts.*2 + length ids.
Proof.
  cbv zeta. revert counts. induction ids as [|x ids IH]; intros counts; simpl.
  - split_and!; [intros; lia|done|intros v; rewrite elem_of_nil; tauto|lia].
  - destruct (IH (bump x counts)) as (Hcount & Hnodup & Hkeys & Hsum).
    split_and!.
    + intros v. rewrite Hcount, count_of_bump. lia.
    + intros Hnd. apply Hnodup. rewrite keys_bump. case_decide; [done|].
      apply NoDup_app. split_and!; [done| |apply NoDup_singleton].
      intros k Hk ->%list_elem_of_singleton. done.
    + intros v. rewrite Hkeys, keys_bump, elem_of_cons. case_decide.
      * split; [intros [?|?]; auto|intros [?|[->|?]]; auto].
      * rewrite elem_of_app, list_elem_of_singleton. tauto.
    + rewrite Hsum, sum_bump. lia.
Qed.

Lemma count_of_elem v n (counts : list (Z * nat)) :
  NoDup counts.*1 -> (v, n) ∈ counts -> count_of v counts = n.
Proof.
  induction counts as [|[k m] counts IH]; simpl; [by intros _ ?%elem_of_nil|].
  intros [Hk Hnd]%NoDup_cons [Heq|Hin]%elem_of_cons.
  - simplify_eq. by rewrite Z.eqb_refl.
  - destruct (Z.eqb_spec k v) as [->|Hne]; [|by apply IH].
    exfalso. apply Hk. apply list_elem_of_fmap. by exists (v, n).
Qed.

Lemma elem_of_count_of v (counts : list (Z * nat)) :
  count_of v counts <> 0 -> (v, count_of v counts) ∈ counts.
Proof.
  induction counts as [|[k m] counts IH]; simpl; [done|].
  destruct (Z.eqb_spec k v) as [->|Hne]; intros Hpos.
  - apply list_elem_of_here.
  - apply list_elem_of_further. by apply IH.
Qed.

Lemma max_by_count_spec best (items : list (Z * nat)) :
  max_by_count best items ∈ best :: items /\
  forall x, x ∈ best :: items -> snd x <= snd (max_by_count best items).
Proof.
  revert best. induction items as [|y items IH]; intros best; simpl.
  - split; [apply list_elem_of_here|]. by intros x ->%list_elem_of_singleton.
  - destruct (Nat.ltb_spec (snd best) (snd y)) as [Hlt|Hge].
    + destruct (IH y) as [Hin Hmax]. split.
      * by apply list_elem_of_further.
      * intros x [->|Hx]%elem_of_cons; [|by apply Hmax].
        specialize (Hmax y (list_elem_of_here _ _)). lia.
    + destruct (IH best) as [Hin Hmax]. split.
      * apply elem_of_cons in Hin as [->|Hin]; [apply list_elem_of_here|].
        by do 2 apply list_elem_of_further.
      * intros x [->|[->|Hx]%elem_of_cons]%elem_of_cons.
        -- apply Hmax, list_elem_of_here.
        -- specialize (Hmax best (list_elem_of_here _ _)). lia.
        -- by apply Hmax, list_elem_of_further.
Qed.

Lemma worker_counts_spec (ids : list Z) :
  (forall v, count_of v (worker_counts ids) = list_count v ids) /\
  NoDup (worker_counts ids).*1 /\
  (forall v, v ∈ (worker_counts ids).*1 <-> v ∈ ids) /\
  sum_list (worker_counts ids).*2 = length ids.
Proof.
  destruct (worker_counts_from ids []) as (Hcount & Hnodup & Hkeys & Hsum).
  split_and!; [done|apply Hnodup, NoDup_nil_2| |done].
  intros v. rewrite Hkeys. simpl. rewrite elem_of_nil. tauto.
Qed.

(** X19: the worker [status] reports as the one with most faces is an
    enrolled worker, the count reported with it is the number of its records,
    and no worker has more records.  On an index without records it reports
    [(None, 0)]. *)
Theorem most_faces_worker_is_max s :
  let most := stat_most_faces_worker (status_statistics s) in
  (known_face_ids s = [] -> most = (None, 0)) /\
  (known_face_ids s <> [] ->
   exists worker_id n,
     most = (Some worker_id, n) /\
     worker_id ∈ known_face_ids s /\
     n = list_count worker_id (known_face_ids s) /\
     forall v, list_count v (known_face_ids s) <= n).
Proof.
  cbv zeta. unfold status_statistics. cbn [stat_most_faces_worker].
  split; [by intros ->|]. intros Hsome.
  destruct (worker_counts_spec (known_face_ids s)) as (Hcount & Hnodup & Hkeys & _).
  destruct (worker_counts (known_face_ids s)) as [|x rest] eqn:Hcounts.
  { destruct (known_face_ids s) as [|v ids]; [done|].
    exfalso. apply (elem_of_nil v). apply Hkeys, list_elem_of_here. }
  destruct (max_by_count_spec x rest) as [Hin Hmax].
  destruct (max_by_count x rest) as [worker_id n] eqn:Hbest.
  exists worker_id, n. split_and!; [done| | |].
  - apply Hkeys. apply list_elem_of_fmap. by exists (worker_id, n).
  - rewrite <- Hcount. symmetry. by apply count_of_elem.
  - intros v. destruct (decide (list_count v (known_face_ids s) = 0)) as [->|Hpos]; [lia|].
    rewrite <- Hcount in Hpos |- *.
    apply (Hmax (v, count_of v (x :: rest))). by apply elem_of_count_of.
Qed.

(** X20: the dict [worker_counts] built by [status] has one entry per
    enrolled worker, holding the number of that worker's records; the number
    of its entries is the [unique_workers] the handler computes from the set
    of ids, and its counts add up to the number of ids. *)
Theorem status_counts s :
  let st := status_statistics s in
  (forall v, count_of v (stat_worker_counts st) = list_count v (known_face_ids s)) /\
  NoDup (stat_worker_counts st).*1 /\
  (forall v, v ∈ (stat_worker_counts st).*1 <-> v ∈ known_face_ids s) /\
  stat_unique_workers st = length (stat_worker_counts st) /\
  sum_list (stat_worker_counts st).*2 = length (known_face_ids s) /\
  stat_total_faces st = length (known_face_encodings s).
Proof.
  cbv zeta. unfold status_statistics.
  cbn [stat_worker_counts stat_unique_workers stat_total_faces].
  destruct (worker_counts_spec (known_face_ids s)) as (Hcount & Hnodup & Hkeys & Hsum).
  split_and!; try done.
  assert (size (list_to_set (known_face_ids s) : gset Z)
          = length (worker_counts (known_face_ids s))) as Hsize.
  { rewrite <- (length_fmap fst), <- (size_list_to_set (C:=gset Z)) by done.
    f_equal. apply set_eq. intros v. by rewrite !elem_of_list_to_set, Hkeys. }
  destruct (known_face_ids s) as [|v ids] eqn:Hids; [done|]. by rewrite <- Hsize.
Qed.

(** ** Reported and recorded totals *)

(** X21: on an index whose counts agree with its metadata, the
    [total_faces_for_worker] in a 200 answer of [enroll], and in the answer
    of an [enroll_batch] with at least one one-face image, is the
    [total_faces] recorded in the worker's metadata after the request. *)
Theorem reported_total_is_recorded cfg dk now worker_id face_encodings images w :
  consistent (mem w) ->
  let enrolled := enroll cfg dk now worker_id face_encodings w in
  let batched := enroll_batch cfg dk now worker_id images w in
  (status_code (fst enrolled) = 200 ->
   exists m,
     known_face_metadata (mem (snd enrolled)) !! worker_id = Some m /\
     field "total_faces_for_worker" (body (fst enrolled)) = Some (jnat (total_faces m))) /\
  (1 <= single_face_images images ->
   exists m,
     known_face_metadata (mem (snd batched)) !! worker_id = Some m /\
     field "total_faces_for_worker" (body (fst batched)) = Some (jnat (total_faces m))).
Proof.
  intros [_ Hcount]. cbv zeta.
  pose proof (Hcount worker_id) as Hw. unfold recorded_total in Hw. split.
  - unfold enroll. destruct face_encodings as [|e [|e' more]]; simpl; try done.
    destruct (Nat.leb _ _); simpl; [done|]. intros _.
    destruct (known_face_metadata (mem w) !! worker_id) as [m|];
      destruct (save_known_faces _ _ _ _ _) as [ok fs']; simpl in *;
      eexists; rewrite lookup_insert_eq; (split; [done|]); simpl; by rewrite ?Hw.
  - intros Hk. unfold enroll_batch.
    destruct images as [|image images]; [simpl in Hk; lia|].
    set (acc := batch_loop _ _ _ _).
    destruct (batch_loop_spec worker_id 0 (image :: images)
                (BatchAcc (known_face_encodings (mem w)) (known_face_ids (mem w)) 0 0 []))
      as (Hs & _ & Hids & _ & _).
    fold acc in Hs, Hids. cbn [successful b_ids] in Hs, Hids.
    rewrite Nat.add_0_l in Hs.
    assert (list_count worker_id (b_ids acc)
            = list_count worker_id (known_face_ids (mem w)) + successful acc) as Hnew.
    { rewrite Hids, list_count_app, list_count_replicate, Hs. by rewrite Z.eqb_refl. }
    cbn [fst snd body field String.eqb Ascii.eqb Bool.eqb]. rewrite Hnew.
    destruct (Nat.ltb_spec 0 (successful acc)) as [_|Hzero]; [|lia].
    destruct (known_face_metadata (mem w) !! worker_id) as [m|];
      destruct (save_known_faces _ _ _ _ _) as [ok fs']; simpl in *;
      eexists; rewrite lookup_insert_eq; (split; [done|]); simpl; by rewrite ?Hw.
Qed.

Lemma reported_total_is_recorded_witness :
  consistent (mem one_enrolled) /\
  status_code (fst (enroll CONFIG DiskOk clock 42 [E2] one_enrolled)) = 200 /\
  exists m,
    known_face_metadata (mem (snd (enroll CONFIG DiskOk clock 42 [E2] one_enrolled)))
      !! 42%Z = Some m /\
    field "total_faces_for_worker"
      (body (fst (enroll CONFIG DiskOk clock 42 [E2] one_enrolled)))
    = Some (jnat (total_faces m)).
Proof.
  assert (status_code (fst (enroll CONFIG DiskOk clock 42 [E2] one_enrolled)) = 200)
    as H200 by reflexivity.
  split; [exact consistent_one_enrolled|]. split; [exact H200|].
  exact (proj1 (reported_total_is_recorded CONFIG DiskOk clock 42 [E2] []
                  one_enrolled consistent_one_enrolled) H200).
Defined.

(** X22: start the service on a store file written without ['metadata'],
    in which the worker has [c] records, fewer than the limit.  An
    enrollment for that worker answers 200 with
    [total_faces_for_worker = c + 1], while the metadata entry it creates
    says [total_faces = 1] and holds a single enrollment date. *)
Theorem enroll_after_load_without_metadata cfg dk now worker_id e d fs :
  fs !! KNOWN_FACES_FILE cfg = Some (Pickled d) ->
  st_metadata d = None ->
  list_count worker_id (st_ids d) < MAX_FACES_PER_WORKER cfg ->
  let r := fst (enroll cfg dk now worker_id [e] (main cfg fs)) in
  let w' := snd (enroll cfg dk now worker_id [e] (main cfg fs)) in
  status_code r = 200 /\
  field "total_faces_for_worker" (body r)
    = Some (jnat (list_count worker_id (st_ids d) + 1)) /\
  known_face_metadata (mem w') !! worker_id
    = Some {| first_enrolled := now 0; last_enrolled := now 1;
              total_faces := 1; enrollment_dates := [now 2] |}.
Proof.
  intros Hfile Hnone Hroom. cbv zeta.
  unfold main, load_known_faces. rewrite Hfile, Hnone. unfold enroll. simpl.
  destruct (Nat.leb_spec (MAX_FACES_PER_WORKER cfg) (list_count worker_id (st_ids d)));
    [lia|].
  rewrite lookup_empty. destruct (save_known_faces _ _ _ _ _) as [ok fs']. simpl.
  by rewrite lookup_insert_eq.
Qed.

Lemma enroll_after_load_without_metadata_witness :
  legacy_disk !! KNOWN_FACES_FILE CONFIG = Some (Pickled legacy_store) /\
  st_metadata legacy_store = None /\
  list_count 42 (st_ids legacy_store) < MAX_FACES_PER_WORKER CONFIG /\
  field "total_faces_for_worker"
    (body (fst (enroll CONFIG DiskOk clock 42 [E1] (main CONFIG legacy_disk))))
  = Some (jnat (list_count 42 (st_ids legacy_store) + 1)).
Proof.
  assert (legacy_disk !! KNOWN_FACES_FILE CONFIG = Some (Pickled legacy_store))
    as Hfile by reflexivity.
  assert (list_count 42 (st_ids legacy_store) < MAX_FACES_PER_WORKER CONFIG) as Hroom.
  { vm_compute. lia. }
  split_and!; [exact Hfile|reflexivity|exact Hroom|].
  exact (proj1 (proj2 (enroll_after_load_without_metadata CONFIG DiskOk clock 42 E1
                         legacy_store legacy_disk Hfile eq_refl Hroom))).
Defined.
